(** * Secret Santa bot: the pairing service

    A shallow embedding of [services/pairing.py], of the parts of
    [database/crud.py] and [database/models.py] it relies on, of the
    [start_pairing] handler of [handlers/admin.py] and of
    [NotificationService._check_event_status_changes] of
    [services/notifications.py], followed by the properties of the pairing
    engine stated in the specification. *)

From Stdlib Require Import ZArith String.
From stdpp Require Import base option list strings.

Open Scope Z_scope.
Open Scope nat_scope.

(** ** Python list operations used by the pairing code *)

Section PyList.
Context {A : Type}.

(** [x[i], x[j] = x[j], x[i]]: the right-hand side is read first, then
    [x[i]] and [x[j]] are stored in that order.  An index out of range
    raises [IndexError], rendered as [None]. *)
Definition swap_items (x : list A) (i j : nat) : option (list A) :=
  match x !! j, x !! i with
  | Some xj, Some xi => Some (<[j := xi]> (<[i := xj]> x))
  | _, _ => None
  end.

(** The random source: [rng n] is the raw draw behind the call
    [randbelow(n)], which answers a number below [n]. *)
Definition randbelow (rng : nat → nat) (n : nat) : nat := rng n mod n.

(** [random.shuffle(x)]:
    [for i in reversed(range(1, len(x))): j = randbelow(i + 1);
     x[i], x[j] = x[j], x[i]]. *)
Fixpoint shuffle_from (rng : nat → nat) (i : nat) (x : list A) : option (list A) :=
  match i with
  | 0 => Some x
  | S i' =>
      let j := randbelow rng (i + 1) in
      x' ← swap_items x i j;
      shuffle_from rng i' x'
  end.

Definition shuffle (rng : nat → nat) (x : list A) : option (list A) :=
  shuffle_from rng (length x - 1) x.
End PyList.

(** ** The pairing computation, [generate_pairs] lines 34 to 46 *)

(** Lines 38 to 43: copy the shuffled ids, swap the first and the middle
    entry when the length is odd, then reverse. *)
Definition make_receivers (participant_ids : list Z) : option (list Z) :=
  let receivers := participant_ids in
  receivers ← (if decide (length receivers mod 2 ≠ 0)
               then swap_items receivers (length receivers / 2) 0
               else Some receivers);
  Some (reverse receivers).

(** Lines 36 to 46: the shuffle, the receivers and the zip of both. *)
Definition draw_pairs (rng : nat → nat) (ids : list Z) : option (list (Z * Z)) :=
  participant_ids ← shuffle rng ids;
  receivers ← make_receivers participant_ids;
  Some (zip participant_ids receivers).

(** The receiver sequence as the specification words it: reverse first,
    then swap [R[0]] and [R[len/2]] when the length is odd. *)
Definition spec_receivers (P : list Z) : option (list Z) :=
  let R := reverse P in
  if decide (length P mod 2 ≠ 0)
  then swap_items R 0 (length P / 2)
  else Some R.

Definition spec_pairs (P : list Z) : option (list (Z * Z)) :=
  R ← spec_receivers P; Some (zip P R).

(** ** The tables of [database/models.py]

    Ids are Python integers; a [DateTime] is its number of microseconds
    since the epoch, a [timedelta] a number of microseconds.  Only the
    columns read or written by the modelled code are kept. *)

Record Event := {
  ev_id : Z;
  ev_status : string;            (* default 'registration' *)
  ev_registration_end : Z;
  ev_shipping_deadline : Z
}.

Record Participant := {
  p_id : Z;
  p_event_id : Z;
  p_telegram_id : Z;
  p_username : option string;    (* nullable *)
  p_first_name : string;
  p_wishes : option string;      (* nullable *)
  p_address : option string;     (* nullable *)
  p_delivery_methods : option string  (* nullable *)
}.

Record SantaPair := {
  sp_id : Z;
  sp_event_id : Z;
  sp_santa_id : Z;
  sp_receiver_id : Z
}.

(** The durable content of the database, each table in row order. *)
Record Database := {
  events : list Event;
  participants : list Participant;
  pairs : list SantaPair
}.

Definition registration : string := "registration".
Definition in_progress : string := "in_progress".
Definition completed : string := "completed".

(** ** The SQLAlchemy session ([autocommit=False], [autoflush=False])

    A session holds the changes made since the last commit.  [commit]
    writes them to the database as one transaction; it can fail, and
    which commits of a run fail is given by a fault schedule. *)

Inductive change :=
| AddPair (event_id santa_id receiver_id : Z)   (* db.add(SantaPair(...)) *)
| SetStatus (event_id : Z) (status : string).   (* event.status = ... *)

Inductive exn :=
| DatabaseError    (* raised by the database driver *)
| IndexError
| AttributeError.

Record Session := {
  store : Database;        (* what is committed *)
  pending : list change;   (* what the session would commit next *)
  commits : nat            (* how many commits this run has attempted *)
}.

Inductive result (A : Type) :=
| Ok (a : A)
| Exc (e : exn).
Arguments Ok {A} a.
Arguments Exc {A} e.

Definition Db (A : Type) : Type := Session → result A * Session.

Definition ret {A} (a : A) : Db A := λ s, (Ok a, s).
Definition raise {A} (e : exn) : Db A := λ s, (Exc e, s).
Definition bind {A B} (m : Db A) (k : A → Db B) : Db B :=
  λ s, match m s with
       | (Ok a, s') => k a s'
       | (Exc e, s') => (Exc e, s')
       end.
(** [try: m except Exception as e: h e] *)
Definition try_except {A} (m : Db A) (h : exn → Db A) : Db A :=
  λ s, match m s with
       | (Ok a, s') => (Ok a, s')
       | (Exc e, s') => h e s'
       end.
(** [try: m finally: f], for a [f] that does not raise. *)
Definition try_finally {A} (m : Db A) (f : Session → Session) : Db A :=
  λ s, let '(r, s') := m s in (r, f s').

Notation "x <- m ;; k" := (bind m (λ x, k))
  (at level 100, m at next level, right associativity).
Notation "m ;;; k" := (bind m (λ _, k))
  (at level 100, right associativity).

Definition get_store : Db Database := λ s, (Ok (store s), s).

(** A value computed by list code that may raise [IndexError]. *)
Definition of_option {A} (o : option A) : Db A :=
  match o with Some a => ret a | None => raise IndexError end.

(** Autoincremented primary key: one more than the largest in the table. *)
Definition next_id (ids : list Z) : Z := (1 + foldr Z.max 0 ids)%Z.

Definition set_status (event_id : Z) (status : string) (e : Event) : Event :=
  if decide (ev_id e = event_id)
  then {| ev_id := ev_id e; ev_status := status;
          ev_registration_end := ev_registration_end e;
          ev_shipping_deadline := ev_shipping_deadline e |}
  else e.

Definition apply_change (d : Database) (c : change) : Database :=
  match c with
  | AddPair event_id santa_id receiver_id =>
      {| events := events d; participants := participants d;
         pairs := pairs d ++ [ {| sp_id := next_id (sp_id <$> pairs d);
                                  sp_event_id := event_id;
                                  sp_santa_id := santa_id;
                                  sp_receiver_id := receiver_id |} ] |}
  | SetStatus event_id status =>
      {| events := set_status event_id status <$> events d;
         participants := participants d; pairs := pairs d |}
  end.

Definition db_add (c : change) : Db unit :=
  λ s, (Ok (), {| store := store s; pending := pending s ++ [c]; commits := commits s |}).

(** [db.commit()]: all pending changes or, on a fault, none of them. *)
Definition db_commit (fault : nat → bool) : Db unit :=
  λ s, if fault (commits s)
       then (Exc DatabaseError,
             {| store := store s; pending := pending s; commits := S (commits s) |})
       else (Ok (),
             {| store := foldl apply_change (store s) (pending s);
                pending := []; commits := S (commits s) |}).

Definition rollback (s : Session) : Session :=
  {| store := store s; pending := []; commits := commits s |}.
Definition db_rollback : Db unit := λ s, (Ok (), rollback s).
(** [db.close()] releases the session; what was not committed is lost. *)
Definition db_close (s : Session) : Session := rollback s.

Definition open_session (d : Database) : Session :=
  {| store := d; pending := []; commits := 0 |}.

(** ** Queries *)

(** [db.query(Participant).filter(Participant.event_id == event_id).all()] *)
Definition participants_of (d : Database) (event_id : Z) : list Participant :=
  filter (λ p, p_event_id p = event_id) (participants d).

(** [db.query(SantaPair).filter(SantaPair.event_id == event_id).all()] *)
Definition pairs_of (d : Database) (event_id : Z) : list SantaPair :=
  filter (λ sp, sp_event_id sp = event_id) (pairs d).

(** [db.query(Event).get(event_id)] *)
Definition get_event (d : Database) (event_id : Z) : option Event :=
  List.find (λ e, bool_decide (ev_id e = event_id)) (events d).

(** The [receiver] and [santa] relationships of a pair: the participant
    with that primary key, if any. *)
Definition get_participant (d : Database) (participant_id : Z) : option Participant :=
  List.find (λ p, bool_decide (p_id p = participant_id)) (participants d).

(** ** [create_santa_pair] of [database/crud.py]: add, commit, refresh *)
Definition create_santa_pair (fault : nat → bool)
    (event_id santa_id receiver_id : Z) : Db unit :=
  db_add (AddPair event_id santa_id receiver_id) ;;;
  db_commit fault.

(** ** [generate_pairs] of [services/pairing.py] *)

Inductive message :=
| InsufficientParticipants   (* line 24: at least 3 participants are needed *)
| AlreadyPaired              (* line 31: the draw was already held *)
| PairingDone                (* line 55: the draw was held *)
| PairsNotGenerated          (* line 60: could not generate the pairs *)
| PairingError (e : exn).    (* line 64: error while holding the draw *)

(** [for santa_id, receiver_id in zip(...): create_santa_pair(...)] *)
Fixpoint create_all (fault : nat → bool) (event_id : Z) (l : list (Z * Z)) : Db unit :=
  match l with
  | [] => ret ()
  | (santa_id, receiver_id) :: l' =>
      create_santa_pair fault event_id santa_id receiver_id ;;;
      create_all fault event_id l'
  end.

Definition generate_pairs_body (rng : nat → nat) (fault : nat → bool)
    (event_id : Z) : Db (bool * message) :=
  try_except
    (d <- get_store ;;
     let participants := participants_of d event_id in
     if decide (length participants < 3) then ret (false, InsufficientParticipants)
     else
       let existing_pairs := length (pairs_of d event_id) in
       if decide (0 < existing_pairs) then ret (false, AlreadyPaired)
       else
         let participant_ids := p_id <$> participants in
         participant_ids <- of_option (shuffle rng participant_ids) ;;
         receivers <- of_option (make_receivers participant_ids) ;;
         r <- try_except
                (create_all fault event_id (zip participant_ids receivers) ;;;
                 d <- get_store ;;
                 match get_event d event_id with
                 | Some event =>
                     db_add (SetStatus event_id in_progress) ;;;
                     db_commit fault
                 | None => ret ()
                 end ;;;
                 ret (Some (true, PairingDone)))
                (λ e, db_rollback ;;; ret None) ;;
         match r with
         | Some answer => ret answer
         | None => ret (false, PairsNotGenerated)
         end)
    (λ e, db_rollback ;;; ret (false, PairingError e)).

(** The whole call: a fresh session, the body, [db.close()]; the result
    and the database as it is left. *)
Definition generate_pairs (rng : nat → nat) (fault : nat → bool)
    (event_id : Z) (d : Database) : (bool * message) * Database :=
  match try_finally (generate_pairs_body rng fault event_id) db_close (open_session d) with
  | (Ok answer, s) => (answer, store s)
  | (Exc e, s) => ((false, PairingError e), store s)
  end.

(** ** [get_recipient_info] of [services/pairing.py] *)

Record RecipientInfo := {
  name : string;
  username : string;
  wishes : string;
  address : string;
  delivery_methods : string
}.

(** The two placeholder texts, as the source file spells them. *)
Definition not_given : string := "–Ω–µ —É–∫–∞–∑–∞–Ω".
Definition not_given_pl : string := "–Ω–µ —É–∫–∞–∑–∞–Ω—ã".

(** Truth value of an optional string: [None] and the empty string are false. *)
Definition truthy (o : option string) : bool :=
  match o with
  | Some s => negb (String.eqb s "")
  | None => false
  end.

(** [o or placeholder] *)
Definition or_else (o : option string) (placeholder : string) : string :=
  match o with
  | Some s => if truthy o then s else placeholder
  | None => placeholder
  end.

(** [f"@{u}" if u else placeholder] *)
Definition at_username (o : option string) (placeholder : string) : string :=
  match o with
  | Some u => if truthy o then String.append "@" u else placeholder
  | None => placeholder
  end.

(** [db.query(SantaPair).filter(event_id == ..., santa_id == ...).first()] *)
Definition first_pair_of_santa (d : Database) (event_id participant_id : Z)
    : option SantaPair :=
  List.find (λ sp, bool_decide (sp_event_id sp = event_id)
                   && bool_decide (sp_santa_id sp = participant_id)) (pairs d).

Definition recipient_record (receiver : Participant) : RecipientInfo :=
  {| name := p_first_name receiver;
     username := at_username (p_username receiver) not_given;
     wishes := or_else (p_wishes receiver) not_given_pl;
     address := or_else (p_address receiver) not_given;
     delivery_methods := or_else (p_delivery_methods receiver) not_given_pl |}.

(** The body of the [try]: the pair query is read 0, loading
    [pair.receiver] is read 1; [read_fault] says which reads raise. *)
Definition get_recipient_info_try (read_fault : nat → bool)
    (participant_id event_id : Z) (d : Database) : result (option RecipientInfo) :=
  if read_fault 0 then Exc DatabaseError
  else
    match first_pair_of_santa d event_id participant_id with
    | None => Ok None
    | Some sp =>
        if read_fault 1 then Exc DatabaseError
        else
          match get_participant d (sp_receiver_id sp) with
          | None => Ok None
          | Some receiver => Ok (Some (recipient_record receiver))
          end
    end.

(** [except Exception as e: return None] *)
Definition get_recipient_info (read_fault : nat → bool)
    (participant_id event_id : Z) (d : Database) : result (option RecipientInfo) :=
  match get_recipient_info_try read_fault participant_id event_id d with
  | Ok r => Ok r
  | Exc e => Ok None
  end.

(** ** [send_pairing_notifications] of [services/pairing.py]

    [bot k] tells whether the [k]-th call of [bot.send_message] of the run
    raises.  The run yields the messages delivered, as the chat id and
    the recipient record the text is formatted from, and the error log,
    as the santa id and the exception. *)

Inductive bot_exn := Raised (e : exn) | TelegramError.

Fixpoint notify_each (bot : nat → bool) (read_fault : nat → bool)
    (event_id : Z) (d : Database) (l : list SantaPair) (k : nat)
    : list (Z * RecipientInfo) * list (Z * bot_exn) :=
  match l with
  | [] => ([], [])
  | sp :: rest =>
      match get_recipient_info read_fault (sp_santa_id sp) event_id d with
      | Exc e =>
          let '(sent, log) := notify_each bot read_fault event_id d rest k in
          (sent, (sp_santa_id sp, Raised e) :: log)
      | Ok None => notify_each bot read_fault event_id d rest k      (* continue *)
      | Ok (Some recipient_info) =>
          match get_participant d (sp_santa_id sp) with           (* pair.santa *)
          | None =>
              let '(sent, log) := notify_each bot read_fault event_id d rest k in
              (sent, (sp_santa_id sp, Raised AttributeError) :: log)
          | Some santa =>
              let '(sent, log) := notify_each bot read_fault event_id d rest (S k) in
              if bot k
              then (sent, (sp_santa_id sp, TelegramError) :: log)
              else ((p_telegram_id santa, recipient_info) :: sent, log)
          end
      end
  end.

Definition send_pairing_notifications (bot : nat → bool) (read_fault : nat → bool)
    (event_id : Z) (d : Database) : list (Z * RecipientInfo) * list (Z * bot_exn) :=
  notify_each bot read_fault event_id d (pairs_of d event_id) 0.

(** ** The [start_pairing] handler of [handlers/admin.py] *)

Inductive answer :=
| EventNotFound                       (* line 421 *)
| RegistrationNotOver                 (* line 426 *)
| NotEnoughParticipants (n : nat)     (* line 434 *)
| PairingSucceeded (m : message)      (* line 451 *)
| PairingFailed (m : message)         (* line 456 *)
| HandlerError (e : exn).             (* line 459 *)

Record HandlerRun := {
  reply : answer;
  database : Database;
  delivered : list (Z * RecipientInfo);
  logged : list (Z * bot_exn)
}.

(** [now] is [datetime.now()] at line 425; [handler_fault] tells whether
    the handler's own commit at line 449 fails. *)
Definition start_pairing (rng : nat → nat) (fault : nat → bool)
    (handler_fault : bool) (bot : nat → bool) (read_fault : nat → bool)
    (now : Z) (event_id : Z) (d : Database) : HandlerRun :=
  let quiet a := {| reply := a; database := d; delivered := []; logged := [] |} in
  match get_event d event_id with
  | None => quiet EventNotFound
  | Some event =>
      if decide (now < ev_registration_end event)%Z then quiet RegistrationNotOver
      else
        let n := length (participants_of d (ev_id event)) in
        if decide (n < 3) then quiet (NotEnoughParticipants n)
        else
          let '((success, message), d1) := generate_pairs rng fault event_id d in
          if success then
            let '(sent, log) := send_pairing_notifications bot read_fault event_id d1 in
            if handler_fault
            then {| reply := HandlerError DatabaseError; database := d1;
                    delivered := sent; logged := log |}
            else {| reply := PairingSucceeded message;
                    database := apply_change d1 (SetStatus event_id in_progress);
                    delivered := sent; logged := log |}
          else {| reply := PairingFailed message; database := d1;
                  delivered := []; logged := [] |}
  end.

(** ** [NotificationService._check_event_status_changes] *)

Definition minutes (n : Z) : Z := (n * 60000000)%Z.
Definition days (n : Z) : Z := (n * 86400000000)%Z.

(** Truth value of an optional [timedelta]: [None] and zero are false. *)
Definition delta_given (o : option Z) : option Z :=
  match o with
  | Some t => if decide (t = 0%Z) then None else Some t
  | None => None
  end.

(** The filters shared by [get_events_with_active_registration] and
    [get_events_with_upcoming_deadline] of [database/crud.py], over the
    date column [col]. *)
Definition events_in_window (col : Event → Z) (d : Database) (now time_left : Z)
    (min_time_left : option Z) (status : option string) : list Event :=
  let end_time := (now + time_left)%Z in
  let query := filter (λ e, (col e ≤ end_time)%Z ∧ (now - days 1 < col e)%Z) (events d) in
  let query := match delta_given min_time_left with
               | Some t => filter (λ e, (now + t ≤ col e)%Z) query
               | None => query
               end in
  if truthy status
  then filter (λ e, Some (ev_status e) = status) query
  else query.

Definition get_events_with_active_registration :=
  events_in_window ev_registration_end.
Definition get_events_with_upcoming_deadline :=
  events_in_window ev_shipping_deadline.

(** [for event in events: event.status = status; db.commit()] *)
Fixpoint set_status_each (fault : nat → bool) (status : string) (l : list Event)
    : Db unit :=
  match l with
  | [] => ret ()
  | event :: rest =>
      db_add (SetStatus (ev_id event) status) ;;;
      db_commit fault ;;;
      set_status_each fault status rest
  end.

(** [now1] and [now2] are the clock readings of the two queries.  The
    group messages sent after each commit are caught and logged by
    [_notify_group] and leave the database alone. *)
Definition check_event_status_changes_body (fault : nat → bool) (now1 now2 : Z)
    : Db unit :=
  d <- get_store ;;
  let events_started :=
    get_events_with_active_registration d now1 (minutes (-5))
      (Some (minutes (-10))) (Some registration) in
  set_status_each fault in_progress events_started ;;;
  d <- get_store ;;
  let events_ended :=
    get_events_with_upcoming_deadline d now2 (minutes (-5))
      (Some (minutes (-10))) (Some in_progress) in
  set_status_each fault completed events_ended.

Definition check_event_status_changes (fault : nat → bool) (now1 now2 : Z)
    (d : Database) : Database :=
  store (snd (check_event_status_changes_body fault now1 now2 (open_session d))).

(** ** [get_santa_info] of [services/pairing.py] *)

Record SantaInfo := {
  santa_name : string;        (* key 'name' *)
  santa_username : string     (* key 'username' *)
}.

(** [db.query(SantaPair).filter(event_id == ..., receiver_id == ...).first()] *)
Definition first_pair_of_receiver (d : Database) (event_id participant_id : Z)
    : option SantaPair :=
  List.find (λ sp, bool_decide (sp_event_id sp = event_id)
                   && bool_decide (sp_receiver_id sp = participant_id)) (pairs d).

Definition santa_record (santa : Participant) : SantaInfo :=
  {| santa_name := p_first_name santa;
     santa_username := at_username (p_username santa) not_given |}.

(** The body of the [try]; the reads are numbered as in
    [get_recipient_info_try]. *)
Definition get_santa_info_try (read_fault : nat → bool)
    (participant_id event_id : Z) (d : Database) : result (option SantaInfo) :=
  if read_fault 0 then Exc DatabaseError
  else
    match first_pair_of_receiver d event_id participant_id with
    | None => Ok None
    | Some sp =>
        if read_fault 1 then Exc DatabaseError
        else
          match get_participant d (sp_santa_id sp) with
          | None => Ok None
          | Some santa => Ok (Some (santa_record santa))
          end
    end.

(** [except Exception as e: return None] *)
Definition get_santa_info (read_fault : nat → bool)
    (participant_id event_id : Z) (d : Database) : result (option SantaInfo) :=
  match get_santa_info_try read_fault participant_id event_id d with
  | Ok r => Ok r
  | Exc e => Ok None
  end.

(** ** [check_pairing] of [handlers/messaging.py] and the queries of
    [database/crud.py] it calls *)

(** [get_participant_by_telegram] *)
Definition get_participant_by_telegram (d : Database) (event_id telegram_id : Z)
    : option Participant :=
  List.find (λ p, bool_decide (p_event_id p = event_id)
                  && bool_decide (p_telegram_id p = telegram_id)) (participants d).

(** [get_santa_pair] *)
Definition get_santa_pair (d : Database) (event_id santa_id : Z) : option SantaPair :=
  List.find (λ sp, bool_decide (sp_event_id sp = event_id)
                   && bool_decide (sp_santa_id sp = santa_id)) (pairs d).

Inductive pairing_note :=
| NotRegistered     (* line 56: you are not registered in this event *)
| NotDrawnYet       (* line 60: the draw has not been held yet *)
| NoNote.           (* line 62: the empty string *)

Definition check_pairing (telegram_id event_id : Z) (d : Database)
    : bool * pairing_note :=
  match get_participant_by_telegram d event_id telegram_id with
  | None => (false, NotRegistered)
  | Some participant =>
      match get_santa_pair d event_id (p_id participant) with
      | None => (false, NotDrawnYet)
      | Some _ => (true, NoNote)
      end
  end.

(** ** [NotificationService._notify_participants]

    One text goes to every participant of the event, or, with
    [only_with_recipients], to those who are santa in a pair of the event.
    The calls of [bot.send_message] are numbered from [k]; the run yields
    the chat ids reached and the log of failed calls. *)

(** [any(p.santa_id == participant.id for p in event.pairs)] *)
Definition has_recipient (d : Database) (event : Event) (participant : Participant)
    : bool :=
  existsb (λ sp, bool_decide (sp_santa_id sp = p_id participant))
          (pairs_of d (ev_id event)).

Fixpoint notify_list (bot : nat → bool) (only_with_recipients : bool)
    (d : Database) (event : Event) (l : list Participant) (k : nat)
    : list Z * list (Z * bot_exn) :=
  match l with
  | [] => ([], [])
  | participant :: rest =>
      if only_with_recipients && negb (has_recipient d event participant)
      then notify_list bot only_with_recipients d event rest k       (* continue *)
      else
        let '(sent, log) := notify_list bot only_with_recipients d event rest (S k) in
        if bot k
        then (sent, (p_telegram_id participant, TelegramError) :: log)
        else (p_telegram_id participant :: sent, log)
  end.

Definition notify_participants (bot : nat → bool) (only_with_recipients : bool)
    (d : Database) (event : Event) (k : nat) : list Z * list (Z * bot_exn) :=
  notify_list bot only_with_recipients d event (participants_of d (ev_id event)) k.

(** ** The wording of the shipping reminder,
    [NotificationService._check_shipping_reminders] lines 135 to 141 *)

Definition word_den : string := "день".
Definition word_dnya : string := "дня".
Definition word_dney : string := "дней".
Definition word_chas : string := "час".
Definition word_chasa : string := "часа".
Definition word_chasov : string := "часов".

(** [_plural_days]; [%] is Python's, which for a positive modulus is
    [Z.modulo]. *)
Definition plural_days (n : Z) : string :=
  if decide (n mod 10 = 1 ∧ n mod 100 ≠ 11)%Z then word_den
  else if decide ((2 ≤ n mod 10 ∧ n mod 10 ≤ 4)
                  ∧ (n mod 100 < 10 ∨ 20 ≤ n mod 100))%Z then word_dnya
  else word_dney.

(** [_plural_hours] *)
Definition plural_hours (n : Z) : string :=
  if decide (n mod 10 = 1 ∧ n mod 100 ≠ 11)%Z then word_chas
  else if decide ((2 ≤ n mod 10 ∧ n mod 10 ≤ 4)
                  ∧ (n mod 100 < 10 ∨ 20 ≤ n mod 100))%Z then word_chasa
  else word_chasov.

(** The fields [days] and [seconds] of a [timedelta] of [t] microseconds:
    whole days, rounded down, and the whole seconds of the rest. *)
Definition td_days (t : Z) : Z := (t / 86400000000)%Z.
Definition td_seconds (t : Z) : Z := ((t mod 86400000000) / 1000000)%Z.

(** Lines 132 to 133: an event is skipped when more than three days or
    less than nothing is left. *)
Definition reminder_skipped (time_left : Z) : bool :=
  bool_decide (days 3 < time_left)%Z || bool_decide (time_left < 0)%Z.

(** Lines 135 to 141: the number and the word of [time_str]. *)
Definition shipping_time_str (time_left : Z) : Z * string :=
  let days := td_days time_left in
  let hours := ((td_seconds time_left / 3600) mod 24)%Z in
  if decide (0 < days)%Z then (days, plural_days days)
  else (hours, plural_hours hours).

(** ** Feedback and gift confirmations of [database/crud.py] *)

Record Feedback := {
  fb_id : Z;
  fb_pair_id : Z;
  fb_message : string;
  fb_rating : option Z       (* nullable, meant to be 1 to 5 *)
}.

Record GiftConfirmation := {
  gc_id : Z;
  gc_pair_id : Z;
  gc_tracking_number : option string;
  gc_message : option string
}.

Inductive crud_exn :=
| ValueError          (* Rating must be between 1 and 5 *)
| CommitFailed.       (* raised by [db.commit()] *)

(** [create_feedback]: the row created and the table after, or the
    exception and the table as it was.  [commit_fails] tells whether the
    commit raises. *)
Definition create_feedback (commit_fails : bool) (pair_id : Z) (message : string)
    (rating : option Z) (table : list Feedback)
    : (crud_exn + Feedback) * list Feedback :=
  let invalid := match rating with
                 | Some r => bool_decide (r < 1 ∨ 5 < r)%Z
                 | None => false
                 end in
  if invalid then (inl ValueError, table)
  else
    let db_feedback := {| fb_id := next_id (fb_id <$> table); fb_pair_id := pair_id;
                          fb_message := message; fb_rating := rating |} in
    if commit_fails then (inl CommitFailed, table)
    else (inr db_feedback, table ++ [db_feedback]).

(** [has_feedback] *)
Definition has_feedback (pair_id : Z) (table : list Feedback) : bool :=
  match List.find (λ f, bool_decide (fb_pair_id f = pair_id)) table with
  | Some _ => true
  | None => false
  end.

(** [create_gift_confirmation] *)
Definition create_gift_confirmation (commit_fails : bool) (pair_id : Z)
    (tracking_number message : option string) (table : list GiftConfirmation)
    : (crud_exn + GiftConfirmation) * list GiftConfirmation :=
  let db_confirmation := {| gc_id := next_id (gc_id <$> table); gc_pair_id := pair_id;
                            gc_tracking_number := tracking_number;
                            gc_message := message |} in
  if commit_fails then (inl CommitFailed, table)
  else (inr db_confirmation, table ++ [db_confirmation]).

(** [has_gift_confirmation] *)
Definition has_gift_confirmation (pair_id : Z) (table : list GiftConfirmation) : bool :=
  match List.find (λ c, bool_decide (gc_pair_id c = pair_id)) table with
  | Some _ => true
  | None => false
  end.

(** ** Auxiliary notions used in the statements *)

(** Where the receiver of position [i] stands in a shuffled list of
    length [n]. *)
Definition receiver_index (n i : nat) : nat :=
  if decide (n mod 2 ≠ 0)
  then if decide (i = n - 1) then n / 2
       else if decide (i = n / 2) then 0
       else n - 1 - i
  else n - 1 - i.

(** The database after the pairs of [l] were committed one by one. *)
Definition pair_change (event_id : Z) (gr : Z * Z) : change :=
  AddPair event_id gr.1 gr.2.
Definition add_pairs (event_id : Z) (l : list (Z * Z)) (d : Database) : Database :=
  foldl apply_change d (pair_change event_id <$> l).

(** The status of the event with that id, if there is one. *)
Definition status_of (d : Database) (event_id : Z) : option string :=
  ev_status <$> get_event d event_id.

(** A fault schedule without faults, and one whose only fault is at [n]. *)
Definition no_fault : nat → bool := λ _, false.
Definition fault_at (n : nat) : nat → bool := λ k, Nat.eqb k n.

(** [drop_failed bot k l]: the list [l] of messages, sent by the calls
    number [k], [k + 1], ... of [bot.send_message], without those whose
    call raised. *)
Fixpoint drop_failed {X} (bot : nat → bool) (k : nat) (l : list X) : list X :=
  match l with
  | [] => []
  | x :: rest =>
      if bot k then drop_failed bot (S k) rest
      else x :: drop_failed bot (S k) rest
  end.

(** The event [ev] with another status. *)
Definition with_status (status : string) (ev : Event) : Event :=
  {| ev_id := ev_id ev; ev_status := status;
     ev_registration_end := ev_registration_end ev;
     ev_shipping_deadline := ev_shipping_deadline ev |}.

(** Two rows of the events table that differ at most in their status. *)
Definition same_but_status (ev ev' : Event) : Prop :=
  ev_id ev' = ev_id ev ∧
  ev_registration_end ev' = ev_registration_end ev ∧
  ev_shipping_deadline ev' = ev_shipping_deadline ev.

(** A status stays, or moves along registration, in_progress, completed. *)
Definition status_advances (s s' : string) : Prop :=
  s' = s ∨ (s = registration ∧ s' = in_progress)
  ∨ (s = in_progress ∧ s' = completed)
  ∨ (s = registration ∧ s' = completed).

(** The window of the status check that starts events, at clock [now]. *)
Definition registration_just_ended (now : Z) (ev : Event) : Prop :=
  (now + minutes (-10) ≤ ev_registration_end ev ≤ now + minutes (-5))%Z.

(** The window of the status check that ends events, at clock [now]. *)
Definition shipping_just_ended (now : Z) (ev : Event) : Prop :=
  (now + minutes (-10) ≤ ev_shipping_deadline ev ≤ now + minutes (-5))%Z.

(** What [send_pairing_notifications] sends for one pair when nothing
    fails: the chat of the santa and the record of the receiver. *)
Definition notice_of (read_fault : nat → bool) (event_id : Z) (d : Database)
    (sp : SantaPair) : option (Z * RecipientInfo) :=
  match get_recipient_info read_fault (sp_santa_id sp) event_id d,
        get_participant d (sp_santa_id sp) with
  | Ok (Some info), Some santa => Some (p_telegram_id santa, info)
  | _, _ => None
  end.

(** The chat of the participant with that id. *)
Definition chat_of (d : Database) (participant_id : Z) : Z :=
  from_option p_telegram_id 0%Z (get_participant d participant_id).

(** One turn of the status loops: the status of [ev]'s id is set. *)
Definition flip_status (status : string) (d : Database) (ev : Event) : Database :=
  apply_change d (SetStatus (ev_id ev) status).

(** What committing the status for the events of [l] does to a row. *)
Definition phase_map (status : string) (l : list Event) (ev : Event) : Event :=
  if decide (ev_id ev ∈ ev_id <$> l) then with_status status ev else ev.

(** The event queries of the two status loops. *)
Definition events_started (d : Database) (now : Z) : list Event :=
  get_events_with_active_registration d now (minutes (-5))
    (Some (minutes (-10))) (Some registration).
Definition events_ended (d : Database) (now : Z) : list Event :=
  get_events_with_upcoming_deadline d now (minutes (-5))
    (Some (minutes (-10))) (Some in_progress).

(** A feedback row without rating or with one from 1 to 5. *)
Definition rating_in_range (f : Feedback) : Prop :=
  match fb_rating f with
  | Some r => (1 ≤ r ≤ 5)%Z
  | None => True
  end.

(** ** Sample data for the concrete runs *)

Definition sample_participant (id event_id : Z) (username wishes : option string)
    : Participant :=
  {| p_id := id; p_event_id := event_id; p_telegram_id := (1000 + id)%Z;
     p_username := username; p_first_name := "Anna";
     p_wishes := wishes; p_address := Some "Main street 1";
     p_delivery_methods := None |}.

Definition sample_event (status : string) (registration_end : Z) : Event :=
  {| ev_id := 1; ev_status := status;
     ev_registration_end := registration_end;
     ev_shipping_deadline := days 30 |}.

Definition three_participants : list Participant :=
  [ sample_participant 1 1 (Some "anna") (Some "books");
    sample_participant 2 1 None (Some "");
    sample_participant 3 1 (Some "") None ].

(** Event 1, open for registration until time 0, three participants, no
    pairs yet. *)
Definition sample_db : Database :=
  {| events := [sample_event registration 0];
     participants := three_participants; pairs := [] |}.

(** The same event with only two participants. *)
Definition small_db : Database :=
  {| events := [sample_event registration 0];
     participants := take 2 three_participants; pairs := [] |}.

(** The same event already moved to [in_progress], still without pairs. *)
Definition started_db : Database :=
  {| events := [sample_event in_progress 0];
     participants := three_participants; pairs := [] |}.

(** No event at all, and three participant rows that name event 7. *)
Definition orphan_db : Database :=
  {| events := [];
     participants := [ sample_participant 1 7 None None;
                       sample_participant 2 7 None None;
                       sample_participant 3 7 None None ];
     pairs := [] |}.

Definition empty_db : Database :=
  {| events := []; participants := []; pairs := [] |}.

(** * Properties *)

(** ** The model at work on small inputs *)

Example make_receivers_3 : make_receivers [1; 2; 3]%Z = Some [3; 1; 2]%Z.
Proof. reflexivity. Qed.

Example make_receivers_4 : make_receivers [1; 2; 3; 4]%Z = Some [4; 3; 2; 1]%Z.
Proof. reflexivity. Qed.

Example spec_receivers_3 : spec_receivers [1; 2; 3]%Z = Some [2; 3; 1]%Z.
Proof. reflexivity. Qed.

Example draw_pairs_5 :
  draw_pairs (λ n, 1) [10; 20; 30; 40; 50]%Z
  = Some [(10, 20); (30, 50); (40, 10); (50, 30); (20, 40)]%Z.
Proof. reflexivity. Qed.

(** ** Swapping and shuffling *)

Section PyListFacts.
Context {A : Type}.
Implicit Types x y : list A.

Lemma swap_items_Some x i j :
  i < length x → j < length x → is_Some (swap_items x i j).
Proof.
  intros [xi Hi]%lookup_lt_is_Some_2 [xj Hj]%lookup_lt_is_Some_2.
  unfold swap_items. rewrite Hi, Hj. eauto.
Qed.

Lemma swap_items_inv x i j y :
  swap_items x i j = Some y →
  ∃ xi xj, x !! i = Some xi ∧ x !! j = Some xj ∧ y = <[j := xi]> (<[i := xj]> x).
Proof.
  unfold swap_items. intros H.
  destruct (x !! j) as [xj|] eqn:Hj; [|done].
  destruct (x !! i) as [xi|] eqn:Hi; [|done].
  exists xi, xj. by simplify_eq.
Qed.

Lemma swap_items_Permutation x i j y : swap_items x i j = Some y → y ≡ₚ x.
Proof.
  intros (xi & xj & Hi & Hj & ->)%swap_items_inv.
  by apply Permutation_insert_swap.
Qed.

Lemma swap_items_length x i j y : swap_items x i j = Some y → length y = length x.
Proof. intros H%swap_items_Permutation. by rewrite H. Qed.

Lemma shuffle_from_Permutation rng i x :
  i < length x ∨ i = 0 →
  ∃ y, shuffle_from rng i x = Some y ∧ y ≡ₚ x.
Proof.
  revert x. induction i as [|i IH]; intros x Hi; cbn [shuffle_from].
  { by exists x. }
  destruct Hi as [Hi|]; [|done].
  assert (randbelow rng (S i + 1) < length x) as Hj.
  { unfold randbelow.
    pose proof (Nat.mod_upper_bound (rng (S i + 1)) (S i + 1)). lia. }
  destruct (swap_items_Some x (S i) _ Hi Hj) as [x' Hx'].
  rewrite Hx'. simpl.
  destruct (IH x') as (y & Hy & Hperm).
  { left. rewrite (swap_items_length _ _ _ _ Hx'). lia. }
  exists y. split; [done|].
  by rewrite Hperm, (swap_items_Permutation _ _ _ _ Hx').
Qed.

(** The shuffle always returns, and what it returns is a rearrangement
    of the list it was given. *)
Lemma shuffle_Permutation rng x : ∃ y, shuffle rng x = Some y ∧ y ≡ₚ x.
Proof.
  apply shuffle_from_Permutation.
  destruct x; simpl; [by right | left; lia].
Qed.

Lemma reverse_insert x i a :
  i < length x → reverse (<[i := a]> x) = <[length x - S i := a]> (reverse x).
Proof.
  intros Hi. apply list_eq. intros k.
  destruct (decide (k < length x)) as [Hk|Hk].
  - rewrite reverse_lookup by (rewrite length_insert; lia).
    rewrite length_insert, !list_lookup_insert, length_reverse.
    rewrite reverse_lookup by done.
    repeat case_decide; try done; lia.
  - rewrite !lookup_ge_None_2; [done | |];
      rewrite ?length_insert, ?length_reverse, ?length_insert; lia.
Qed.
End PyListFacts.

(** ** The receivers *)

Lemma odd_half n : n mod 2 ≠ 0 → n = 2 * (n / 2) + 1.
Proof.
  intros H. pose proof (Nat.div_mod_eq n 2).
  pose proof (Nat.mod_upper_bound n 2). lia.
Qed.

Lemma even_half n : ¬ n mod 2 ≠ 0 → n = 2 * (n / 2).
Proof. intros H. pose proof (Nat.div_mod_eq n 2). lia. Qed.


Lemma receiver_index_ne n i : 3 ≤ n → i < n → receiver_index n i ≠ i.
Proof.
  intros Hn Hi. unfold receiver_index.
  destruct (decide (n mod 2 ≠ 0)) as [Hodd|Heven].
  - pose proof (odd_half n Hodd). repeat case_decide; lia.
  - pose proof (even_half n Heven). lia.
Qed.

Lemma make_receivers_total (P : list Z) :
  ∃ R, make_receivers P = Some R ∧ R ≡ₚ P.
Proof.
  unfold make_receivers. case_decide as Hodd.
  - pose proof (odd_half _ Hodd).
    destruct (swap_items_Some P (length P / 2) 0) as [S HS]; [lia..|].
    rewrite HS. simpl. eexists; split; [done|].
    by rewrite reverse_Permutation, (swap_items_Permutation _ _ _ _ HS).
  - eexists; split; [done|]. apply reverse_Permutation.
Qed.

Lemma make_receivers_lookup (P R : list Z) i :
  make_receivers P = Some R → i < length P →
  R !! i = P !! receiver_index (length P) i.
Proof.
  unfold make_receivers, receiver_index. intros HR Hi.
  destruct (decide (length P mod 2 ≠ 0)) as [Hodd|Heven].
  - pose proof (odd_half _ Hodd) as Hn.
    destruct (swap_items P (length P / 2) 0) as [S|] eqn:HS; [|done].
    simpl in HR. simplify_eq.
    pose proof (swap_items_length _ _ _ _ HS) as Hlen.
    apply swap_items_inv in HS as (xi & xj & Hmid & H0 & ->).
    rewrite (reverse_lookup _ i), Hlen by (rewrite ?Hlen; lia).
    rewrite !list_lookup_insert, !length_insert.
    repeat case_decide; try done; try lia.
    f_equal; lia.
  - simpl in HR. simplify_eq. rewrite reverse_lookup by done. f_equal; lia.
Qed.

Lemma draw_pairs_inv rng (ids : list Z) :
  ∃ P R, shuffle rng ids = Some P ∧ P ≡ₚ ids ∧
         make_receivers P = Some R ∧ R ≡ₚ P ∧
         draw_pairs rng ids = Some (zip P R).
Proof.
  destruct (shuffle_Permutation rng ids) as (P & HP & HPperm).
  destruct (make_receivers_total P) as (R & HR & HRperm).
  exists P, R. unfold draw_pairs. rewrite HP. simpl. rewrite HR. done.
Qed.

(** Whatever list the shuffle hands over, as long as its entries are
    distinct and at least three: no position receives its own entry. *)
Lemma zip_receivers_no_self (P R : list Z) :
  NoDup P → 3 ≤ length P → make_receivers P = Some R →
  Forall (λ gr, gr.1 ≠ gr.2) (zip P R).
Proof.
  intros Hnd Hn HR.
  apply Forall_lookup. intros i [g r] [Hg Hr]%lookup_zip_Some. simpl.
  assert (i < length P) as Hi by (by eapply lookup_lt_Some).
  rewrite (make_receivers_lookup P R i HR Hi) in Hr.
  intros ->.
  pose proof (NoDup_lookup _ _ _ _ Hnd Hg Hr) as Heq.
  by apply (receiver_index_ne (length P) i).
Qed.

Lemma zip_receivers_coverage (P R : list Z) :
  make_receivers P = Some R →
  length (zip P R) = length P ∧ (zip P R).*1 = P ∧ (zip P R).*2 = R ∧ R ≡ₚ P.
Proof.
  intros HR. destruct (make_receivers_total P) as (R' & HR' & Hperm).
  assert (R' = R) as -> by congruence.
  assert (length R = length P) as Hlen by (by rewrite Hperm).
  rewrite fst_zip, snd_zip, length_zip, Hlen, Nat.min_id by lia. done.
Qed.

(** C2.  For at least three distinct participant ids the pairing
    computation returns, for every random source, and no pair it returns
    gives a participant to themself.  The same holds of the receivers
    computed from any rearrangement [P] of the ids, so for every outcome
    a shuffle can have. *)
Theorem draw_pairs_no_self_pairing (ids : list Z) :
  NoDup ids → 3 ≤ length ids →
  (∀ rng, ∃ l, draw_pairs rng ids = Some l ∧ Forall (λ gr, gr.1 ≠ gr.2) l) ∧
  (∀ P, P ≡ₚ ids →
        ∃ R, make_receivers P = Some R ∧ Forall (λ gr, gr.1 ≠ gr.2) (zip P R)).
Proof.
  intros Hnd Hn.
  assert (∀ P, P ≡ₚ ids →
            ∃ R, make_receivers P = Some R ∧ Forall (λ gr, gr.1 ≠ gr.2) (zip P R))
    as Hany.
  { intros P HP. destruct (make_receivers_total P) as (R & HR & _).
    exists R. split; [done|].
    apply zip_receivers_no_self; [by rewrite HP | by rewrite HP | done]. }
  split; [|done]. intros rng.
  destruct (draw_pairs_inv rng ids) as (P & R & _ & HP & HR & _ & ->).
  eexists; split; [done|].
  destruct (Hany P HP) as (R' & HR' & Hne). by simplify_eq.
Qed.

Lemma draw_pairs_no_self_pairing_witness :
  ∃ l, draw_pairs (λ _, 0) [1; 2; 3]%Z = Some l ∧ Forall (λ gr, gr.1 ≠ gr.2) l.
Proof.
  assert (NoDup [1; 2; 3]%Z) as Hnd
    by (apply (bool_decide_unpack _); vm_compute; exact I).
  assert (3 ≤ length [1; 2; 3]%Z) as Hn by (simpl; lia).
  exact (proj1 (draw_pairs_no_self_pairing [1; 2; 3]%Z Hnd Hn) (λ _, 0)).
Defined.

(** C3.  For distinct participant ids and every random source, the
    pairing computation returns exactly as many pairs as there are ids;
    the givers are a rearrangement of the ids and so are the receivers, so
    that every participant is giver exactly once and receiver exactly
    once.  The same holds of the receivers computed from any
    rearrangement [P] of the ids.  (No lower bound on the number of ids is
    needed, so this holds in particular from three on.) *)
Theorem draw_pairs_coverage (ids : list Z) :
  NoDup ids →
  (∀ rng, ∃ l, draw_pairs rng ids = Some l ∧
       length l = length ids ∧
       l.*1 ≡ₚ ids ∧ l.*2 ≡ₚ ids ∧
       NoDup l.*1 ∧ NoDup l.*2) ∧
  (∀ P, P ≡ₚ ids →
        ∃ R, make_receivers P = Some R ∧
             length (zip P R) = length ids ∧
             (zip P R).*1 ≡ₚ ids ∧ (zip P R).*2 ≡ₚ ids ∧
             NoDup (zip P R).*1 ∧ NoDup (zip P R).*2).
Proof.
  intros Hnd.
  assert (∀ P, P ≡ₚ ids →
        ∃ R, make_receivers P = Some R ∧
             length (zip P R) = length ids ∧
             (zip P R).*1 ≡ₚ ids ∧ (zip P R).*2 ≡ₚ ids ∧
             NoDup (zip P R).*1 ∧ NoDup (zip P R).*2) as Hany.
  { intros P HP. destruct (make_receivers_total P) as (R & HR & _).
    exists R. split; [done|].
    destruct (zip_receivers_coverage P R HR) as (-> & -> & -> & HRP).
    split_and!.
    - by rewrite HP.
    - done.
    - by rewrite HRP.
    - by rewrite HP.
    - by rewrite HRP, HP. }
  split; [|done]. intros rng.
  destruct (draw_pairs_inv rng ids) as (P & R & _ & HP & HR & _ & ->).
  eexists; split; [done|].
  destruct (Hany P HP) as (R' & HR' & H). by simplify_eq.
Qed.

Lemma draw_pairs_coverage_witness :
  ∃ l, draw_pairs (λ _, 0) [1; 2; 3]%Z = Some l ∧
       length l = 3 ∧
       l.*1 ≡ₚ [1; 2; 3]%Z ∧ l.*2 ≡ₚ [1; 2; 3]%Z ∧
       NoDup l.*1 ∧ NoDup l.*2.
Proof.
  assert (NoDup [1; 2; 3]%Z) as Hnd
    by (apply (bool_decide_unpack _); vm_compute; exact I).
  exact (proj1 (draw_pairs_coverage [1; 2; 3]%Z Hnd) (λ _, 0)).
Defined.

(** C7, as the specification words it, fails: for the shuffled list
    [2; 3; 1] the code pairs 2 with 1, 3 with 2 and 1 with 3, while
    reversing first and then swapping [R[0]] and [R[len/2]] pairs 2 with
    3, 3 with 1 and 1 with 2. *)
Lemma receivers_order_counterexample :
  shuffle (λ _, 0) [1; 2; 3]%Z = Some [2; 3; 1]%Z ∧
  draw_pairs (λ _, 0) [1; 2; 3]%Z = Some [(2, 1); (3, 2); (1, 3)]%Z ∧
  spec_pairs [2; 3; 1]%Z = Some [(2, 3); (3, 1); (1, 2)]%Z ∧
  draw_pairs (λ _, 0) [1; 2; 3]%Z ≠ (shuffle (λ _, 0) [1; 2; 3]%Z ≫= spec_pairs).
Proof. split_and!; [reflexivity..|]. vm_compute. discriminate. Qed.

(** C7, amended.  The receivers are the shuffled list reversed; when its
    length is odd, the entries of the reversed list at the last position
    and at the middle position [len/2] are exchanged (in the order of the
    code: the swap of the first and the middle entry comes before the
    reversal).  When the length is even they are the receivers of the
    specification. *)
Theorem make_receivers_reverse_then_swap (P : list Z) :
  make_receivers P =
    if decide (length P mod 2 ≠ 0)
    then swap_items (reverse P) (length P / 2) (length P - 1)
    else spec_receivers P.
Proof.
  unfold make_receivers, spec_receivers.
  destruct (decide (length P mod 2 ≠ 0)) as [Hodd|Heven]; [|done].
  pose proof (odd_half _ Hodd) as Hn.
  destruct (lookup_lt_is_Some_2 P 0) as [x0 H0]; [lia|].
  destruct (lookup_lt_is_Some_2 P (length P / 2)) as [xm Hm]; [lia|].
  unfold swap_items. rewrite !reverse_lookup by lia.
  replace (length P - S (length P - 1)) with 0 by lia.
  replace (length P - S (length P / 2)) with (length P / 2) by lia.
  rewrite H0, Hm. cbv [mbind option_bind]. f_equal.
  rewrite reverse_insert by (rewrite length_insert; lia).
  rewrite reverse_insert by lia.
  rewrite length_insert. do 2 f_equal; lia.
Qed.

(** ** The session *)

Lemma add_pairs_cons e gr l d :
  add_pairs e (gr :: l) d = add_pairs e l (apply_change d (pair_change e gr)).
Proof. done. Qed.

Lemma add_pairs_events e l d : events (add_pairs e l d) = events d.
Proof. revert d. induction l as [|gr l IH]; intros d; [done|]. by rewrite add_pairs_cons, IH. Qed.

Lemma add_pairs_participants e l d : participants (add_pairs e l d) = participants d.
Proof. revert d. induction l as [|gr l IH]; intros d; [done|]. by rewrite add_pairs_cons, IH. Qed.

(** The rows added carry the event id and, in order, the givers and
    receivers of [l]; the rows that were there stay as they are. *)
Lemma add_pairs_pairs e l d :
  ∃ rows, pairs (add_pairs e l d) = pairs d ++ rows ∧
          Forall (λ sp, sp_event_id sp = e) rows ∧
          (λ sp, (sp_santa_id sp, sp_receiver_id sp)) <$> rows = l.
Proof.
  revert d. induction l as [|[g r] l IH]; intros d.
  { exists []. by rewrite app_nil_r. }
  rewrite add_pairs_cons.
  destruct (IH (apply_change d (pair_change e (g, r)))) as (rows & Hp & He & Hl).
  eexists (_ :: rows). split_and!.
  - rewrite Hp. simpl. by rewrite <-app_assoc.
  - by constructor.
  - by rewrite fmap_cons, Hl.
Qed.

Lemma add_pairs_pairs_of e l d :
  length (pairs_of (add_pairs e l d) e) = length (pairs_of d e) + length l.
Proof.
  destruct (add_pairs_pairs e l d) as (rows & Hp & He & Hl).
  unfold pairs_of. rewrite Hp, filter_app, length_app. f_equal.
  rewrite <-Hl, length_fmap. f_equal.
  clear -He. induction He as [|sp rows H _ IH]; [done|].
  rewrite filter_cons_True by done. by rewrite IH.
Qed.

Lemma get_event_add_pairs e l d e' : get_event (add_pairs e l d) e' = get_event d e'.
Proof. unfold get_event. by rewrite add_pairs_events. Qed.

Lemma create_all_Ok fault e l s s' :
  pending s = [] →
  create_all fault e l s = (Ok (), s') →
  store s' = add_pairs e l (store s) ∧ pending s' = [] ∧
  commits s' = commits s + length l.
Proof.
  revert s. induction l as [|[g r] l IH]; intros s Hs; simpl.
  { intros [= <-]. split_and!; [done..|lia]. }
  unfold create_santa_pair, bind, db_add, db_commit. simpl.
  destruct (fault (commits s)); [done|]. rewrite Hs. simpl.
  intros H. apply IH in H as (-> & -> & ->); [|done]. simpl.
  split_and!; [done..|lia].
Qed.

Lemma create_all_Exc fault e l s s' ex :
  pending s = [] →
  create_all fault e l s = (Exc ex, s') →
  ∃ n, n < length l ∧ store s' = add_pairs e (take n l) (store s)
       ∧ fault (commits s + n) = true
       ∧ ∀ k, k < n → fault (commits s + k) = false.
Proof.
  revert s. induction l as [|[g r] l IH]; intros s Hs; simpl.
  { done. }
  unfold create_santa_pair, bind, db_add, db_commit. simpl.
  destruct (fault (commits s)) eqn:Hf.
  - intros [= <- <-]. exists 0. simpl. rewrite Nat.add_0_r.
    split_and!; [lia|done..|lia].
  - rewrite Hs. simpl. intros H.
    apply IH in H as (n & Hn & -> & Hfn & Hbefore); [|done]. simpl in *.
    exists (S n). split_and!; [lia|done|..].
    + by replace (commits s + S n) with (S (commits s + n)) by lia.
    + intros [|k] Hk; [by rewrite Nat.add_0_r|].
      replace (commits s + S k) with (S (commits s + k)) by lia.
      apply Hbefore. lia.
Qed.

Lemma create_all_Ok_no_fault fault e l s s' :
  pending s = [] →
  create_all fault e l s = (Ok (), s') →
  ∀ k, k < length l → fault (commits s + k) = false.
Proof.
  revert s. induction l as [|[g r] l IH]; intros s Hs; simpl.
  { intros _ k Hk. lia. }
  unfold create_santa_pair, bind, db_add, db_commit. simpl.
  destruct (fault (commits s)) eqn:Hf; [done|]. rewrite Hs. simpl.
  intros H [|k] Hk; [by rewrite Nat.add_0_r|].
  replace (commits s + S k) with (S (commits s + k)) by lia.
  apply (IH _ (eq_refl : pending (Build_Session _ [] _) = []) H k). lia.
Qed.

Lemma create_all_no_fault e l s :
  pending s = [] →
  ∃ s', create_all no_fault e l s = (Ok (), s').
Proof.
  revert s. induction l as [|[g r] l IH]; intros s Hs; simpl.
  { by eexists. }
  unfold create_santa_pair, bind, db_add, db_commit. simpl.
  rewrite Hs. simpl. by apply IH.
Qed.

(** ** [generate_pairs], case by case *)

Lemma generate_pairs_too_few rng fault e d :
  length (participants_of d e) < 3 →
  generate_pairs rng fault e d = ((false, InsufficientParticipants), d).
Proof.
  intros Hn. unfold generate_pairs, generate_pairs_body, try_finally, try_except,
    bind, get_store. simpl.
  by rewrite decide_True by done.
Qed.

Lemma generate_pairs_paired rng fault e d :
  3 ≤ length (participants_of d e) →
  0 < length (pairs_of d e) →
  generate_pairs rng fault e d = ((false, AlreadyPaired), d).
Proof.
  intros Hn Hp. unfold generate_pairs, generate_pairs_body, try_finally, try_except,
    bind, get_store. simpl.
  rewrite decide_False by lia. by rewrite decide_True by done.
Qed.

(** Past both guards: the pairs are drawn and committed one by one, then
    the status. *)
Lemma generate_pairs_run rng fault e d :
  3 ≤ length (participants_of d e) →
  pairs_of d e = [] →
  ∃ l, draw_pairs rng (p_id <$> participants_of d e) = Some l ∧
       length l = length (participants_of d e) ∧
       generate_pairs rng fault e d =
         match create_all fault e l (open_session d) with
         | (Ok _, _) =>
             match get_event d e with
             | Some _ =>
                 if fault (length l)
                 then ((false, PairsNotGenerated), add_pairs e l d)
                 else ((true, PairingDone),
                       apply_change (add_pairs e l d) (SetStatus e in_progress))
             | None => ((true, PairingDone), add_pairs e l d)
             end
         | (Exc _, s) => ((false, PairsNotGenerated), store s)
         end.
Proof.
  intros Hn Hp.
  destruct (draw_pairs_inv rng (p_id <$> participants_of d e))
    as (P & R & HP & HPperm & HR & HRperm & Hdraw).
  exists (zip P R). split; [done|]. split.
  { rewrite length_zip, HRperm, Nat.min_id, HPperm. apply length_fmap. }
  unfold generate_pairs, generate_pairs_body, try_finally, try_except,
    bind, get_store. simpl.
  rewrite decide_False by lia. rewrite Hp. simpl.
  rewrite HP. simpl. rewrite HR. simpl.
  destruct (create_all fault e (zip P R) (open_session d)) as [[[]|ex] s] eqn:Hc.
  - apply create_all_Ok in Hc as (Hst & Hpe & Hco); [|done]. simpl in Hst, Hco.
    rewrite Hst, get_event_add_pairs.
    destruct (get_event d e) as [ev|]; simpl.
    + unfold db_add, db_commit. simpl. rewrite Hco, Hpe, Hst.
      destruct (fault (length (zip P R))); done.
    + by rewrite Hst.
  - done.
Qed.

Lemma ev_id_set_status e status ev : ev_id (set_status e status ev) = ev_id ev.
Proof. unfold set_status. by case_decide. Qed.

Lemma ev_status_set_status e status ev :
  ev_id ev = e → ev_status (set_status e status ev) = status.
Proof. intros H. unfold set_status. by rewrite decide_True by done. Qed.

Lemma status_of_set_status d e status :
  is_Some (get_event d e) →
  status_of (apply_change d (SetStatus e status)) e = Some status.
Proof.
  unfold status_of, get_event. simpl. intros [ev Hev].
  induction (events d) as [|ev' evs IH]; [done|].
  rewrite fmap_cons. simpl in *.
  destruct (decide (ev_id ev' = e)) as [Heq|Hne].
  - rewrite bool_decide_true by (by rewrite ev_id_set_status).
    simpl. by rewrite ev_status_set_status.
  - rewrite bool_decide_false by (by rewrite ev_id_set_status).
    rewrite bool_decide_false in Hev by done. by apply IH.
Qed.

(** A successful run passed both guards and committed every pair drawn
    and, where the event exists, the new status. *)
Lemma generate_pairs_success rng fault e d m d1 :
  generate_pairs rng fault e d = ((true, m), d1) →
  3 ≤ length (participants_of d e) ∧ pairs_of d e = [] ∧
  ∃ l, draw_pairs rng (p_id <$> participants_of d e) = Some l ∧
       length l = length (participants_of d e) ∧
       d1 = match get_event d e with
            | Some _ => apply_change (add_pairs e l d) (SetStatus e in_progress)
            | None => add_pairs e l d
            end.
Proof.
  intros Hrun.
  destruct (decide (length (participants_of d e) < 3)) as [Hn|Hn].
  { by rewrite generate_pairs_too_few in Hrun. }
  destruct (pairs_of d e) as [|sp sps] eqn:Hp.
  2:{ rewrite generate_pairs_paired in Hrun; [done|lia|]. rewrite Hp. simpl. lia. }
  destruct (generate_pairs_run rng fault e d) as (l & Hdraw & Hlen & Heq); [lia|done|].
  rewrite Heq in Hrun. clear Heq.
  split; [lia|]. split; [done|]. exists l. split; [done|]. split; [done|].
  destruct (create_all fault e l (open_session d)) as [[[]|ex] s]; [|done].
  destruct (get_event d e); [|by simplify_eq].
  destruct (fault (length l)); by simplify_eq.
Qed.

(** Without faults, an event with three participants or more and no pair
    yet is paired: the run succeeds and stores one pair per participant. *)
Lemma generate_pairs_succeeds rng e d :
  3 ≤ length (participants_of d e) →
  pairs_of d e = [] →
  ∃ d1, generate_pairs rng no_fault e d = ((true, PairingDone), d1) ∧
        length (pairs_of d1 e) = length (participants_of d e).
Proof.
  intros Hn Hp.
  destruct (generate_pairs_run rng no_fault e d Hn Hp) as (l & _ & Hlen & ->).
  destruct (create_all_no_fault e l (open_session d) eq_refl) as [s ->].
  assert (length (pairs_of (add_pairs e l d) e) = length (participants_of d e)).
  { by rewrite add_pairs_pairs_of, Hp, Hlen. }
  destruct (get_event d e); simpl; eexists; split; done.
Qed.

(** The pairs stored by a successful run are the pairs drawn: with
    distinct participant ids nobody is stored as their own receiver. *)
Lemma stored_pairs_no_self rng fault e d m d1 :
  NoDup (p_id <$> participants_of d e) →
  generate_pairs rng fault e d = ((true, m), d1) →
  Forall (λ sp, sp_santa_id sp ≠ sp_receiver_id sp) (pairs_of d1 e).
Proof.
  intros Hnd (Hn & Hp & l & Hdraw & Hlen & ->)%generate_pairs_success.
  assert (Forall (λ sp, sp_santa_id sp ≠ sp_receiver_id sp)
            (pairs_of (add_pairs e l d) e)) as Hall.
  { destruct (add_pairs_pairs e l d) as (rows & Hrows & _ & Hl).
    destruct (draw_pairs_inv rng (p_id <$> participants_of d e))
      as (P & R & _ & HP & HR & _ & Hzip).
    assert (l = zip P R) as Hl' by congruence.
    assert (Forall (λ gr, gr.1 ≠ gr.2) l) as Hne.
    { rewrite Hl'. apply zip_receivers_no_self; [by rewrite HP| |done].
      by rewrite HP, length_fmap. }
    rewrite <-Hl in Hne. rewrite Forall_forall in Hne.
    unfold pairs_of in *. rewrite Hrows, filter_app, Hp. simpl.
    apply Forall_forall. intros sp [_ Hin]%list_elem_of_filter.
    exact (Hne _ (list_elem_of_fmap_2 _ _ _ Hin)). }
  by destruct (get_event d e).
Qed.

(** ** The orchestration *)

(** C5.  With fewer than three participants the run answers
    [InsufficientParticipants] and hands the database back as it found it:
    no pair is stored and no status is touched. *)
Theorem insufficient_participants_no_write rng fault e d :
  length (participants_of d e) < 3 →
  generate_pairs rng fault e d = ((false, InsufficientParticipants), d).
Proof. apply generate_pairs_too_few. Qed.

Lemma insufficient_participants_no_write_witness :
  length (participants_of small_db 1) < 3 ∧
  generate_pairs (λ _, 0) no_fault 1 small_db
  = ((false, InsufficientParticipants), small_db).
Proof.
  assert (length (participants_of small_db 1) < 3) as H by (vm_compute; lia).
  split; [exact H|].
  exact (insufficient_participants_no_write (λ _, 0) no_fault 1 small_db H).
Defined.

(** C4.  After a run that succeeded, every further run on the same event,
    whatever its random source and fault schedule, answers [AlreadyPaired]
    and hands the database back unchanged: the stored pairs keep their
    number and their edges.  More generally this is the answer, before
    any write, on every event that has a stored pair and the three
    participants without which no pair is ever stored. *)
Theorem second_run_already_paired rng2 fault2 e :
  (∀ rng1 fault1 d m d1,
     generate_pairs rng1 fault1 e d = ((true, m), d1) →
     generate_pairs rng2 fault2 e d1 = ((false, AlreadyPaired), d1)) ∧
  (∀ d, 3 ≤ length (participants_of d e) → 0 < length (pairs_of d e) →
        generate_pairs rng2 fault2 e d = ((false, AlreadyPaired), d)).
Proof.
  split; [|intros d; apply generate_pairs_paired].
  intros rng1 fault1 d m d1 (Hn & Hp & l & _ & Hlen & ->)%generate_pairs_success.
  apply generate_pairs_paired.
  - destruct (get_event d e); unfold participants_of in *; simpl;
      by rewrite add_pairs_participants.
  - assert (0 < length (pairs_of (add_pairs e l d) e)) as Hpos.
    { rewrite add_pairs_pairs_of. lia. }
    by destruct (get_event d e).
Qed.

Lemma second_run_already_paired_witness :
  generate_pairs (λ _, 0) no_fault 1 sample_db
  = ((true, PairingDone), (generate_pairs (λ _, 0) no_fault 1 sample_db).2) ∧
  generate_pairs (λ _, 1) (fault_at 0) 1 (generate_pairs (λ _, 0) no_fault 1 sample_db).2
  = ((false, AlreadyPaired), (generate_pairs (λ _, 0) no_fault 1 sample_db).2) ∧
  (3 ≤ length (participants_of (generate_pairs (λ _, 0) (fault_at 1) 1 sample_db).2 1) ∧
   0 < length (pairs_of (generate_pairs (λ _, 0) (fault_at 1) 1 sample_db).2 1) ∧
   generate_pairs (λ _, 1) (fault_at 0) 1 (generate_pairs (λ _, 0) (fault_at 1) 1 sample_db).2
   = ((false, AlreadyPaired), (generate_pairs (λ _, 0) (fault_at 1) 1 sample_db).2)).
Proof.
  assert (generate_pairs (λ _, 0) no_fault 1 sample_db
          = ((true, PairingDone), (generate_pairs (λ _, 0) no_fault 1 sample_db).2))
    as H by reflexivity.
  destruct (second_run_already_paired (λ _, 1) (fault_at 0) 1) as [Hseq Hguard].
  split; [exact H|]. split; [exact (Hseq _ _ _ _ _ H)|].
  assert (3 ≤ length (participants_of
                        (generate_pairs (λ _, 0) (fault_at 1) 1 sample_db).2 1)) as H3
    by (vm_compute; lia).
  assert (0 < length (pairs_of
                        (generate_pairs (λ _, 0) (fault_at 1) 1 sample_db).2 1)) as H0
    by (vm_compute; lia).
  split; [exact H3|]. split; [exact H0|]. exact (Hguard _ H3 H0).
Defined.

(** C1 is not what the code does.  With three participants and a fault at
    the second commit, the run answers that the pairs could not be
    generated, the status is still [registration], and the pair committed
    before the fault is still stored. *)
Theorem partial_pairs_after_commit_fault :
  (generate_pairs (λ _, 0) (fault_at 1) 1 sample_db).1 = (false, PairsNotGenerated) ∧
  status_of (generate_pairs (λ _, 0) (fault_at 1) 1 sample_db).2 1 = Some registration ∧
  (λ sp, (sp_santa_id sp, sp_receiver_id sp))
    <$> pairs_of (generate_pairs (λ _, 0) (fault_at 1) 1 sample_db).2 1 = [(2, 1)%Z].
Proof. split_and!; reflexivity. Qed.

(** C6, as stated, fails for [generate_pairs]: on an event id that does
    not resolve it answers [InsufficientParticipants] when fewer than
    three participant rows name that id, and it succeeds and stores pairs
    when three rows do. *)
Lemma missing_event_counterexample :
  get_event empty_db 7 = None ∧
  generate_pairs (λ _, 0) no_fault 7 empty_db
  = ((false, InsufficientParticipants), empty_db) ∧
  get_event orphan_db 7 = None ∧
  (generate_pairs (λ _, 0) no_fault 7 orphan_db).1 = (true, PairingDone) ∧
  length (pairs_of (generate_pairs (λ _, 0) no_fault 7 orphan_db).2 7) = 3.
Proof. split_and!; reflexivity. Qed.

(** C6, amended.  When the event id does not resolve, the [start_pairing]
    handler answers [EventNotFound] before [generate_pairs] is called:
    nothing is stored and nothing is sent.  [generate_pairs] has no such
    answer of its own; with fewer than three participant rows for that id
    it answers [InsufficientParticipants] and stores nothing. *)
Theorem missing_event_reported_by_handler
    rng fault handler_fault bot read_fault now e d :
  get_event d e = None →
  start_pairing rng fault handler_fault bot read_fault now e d
  = {| reply := EventNotFound; database := d; delivered := []; logged := [] |} ∧
  (length (participants_of d e) < 3 →
   generate_pairs rng fault e d = ((false, InsufficientParticipants), d)).
Proof.
  intros He. split.
  - unfold start_pairing. by rewrite He.
  - apply generate_pairs_too_few.
Qed.

Lemma missing_event_reported_by_handler_witness :
  get_event empty_db 7 = None ∧
  start_pairing (λ _, 0) no_fault false no_fault no_fault 5 7 empty_db
  = {| reply := EventNotFound; database := empty_db; delivered := []; logged := [] |} ∧
  (length (participants_of empty_db 7) < 3 →
   generate_pairs (λ _, 0) no_fault 7 empty_db
   = ((false, InsufficientParticipants), empty_db)).
Proof.
  assert (get_event empty_db 7 = None) as H by reflexivity.
  split; [exact H|].
  exact (missing_event_reported_by_handler
           (λ _, 0) no_fault false no_fault no_fault 5 7 empty_db H).
Defined.

(** C8, as stated, fails twice: [generate_pairs] runs, and succeeds, on
    an event whose status is already [in_progress]; and the status check
    of the notification service moves an event from [registration] to
    [in_progress] seven minutes after the end of registration, with no
    pair stored. *)
Lemma status_transition_counterexample :
  status_of started_db 1 = Some in_progress ∧
  (generate_pairs (λ _, 0) no_fault 1 started_db).1 = (true, PairingDone) ∧
  status_of sample_db 1 = Some registration ∧
  status_of (check_event_status_changes no_fault (minutes 7) (minutes 7) sample_db) 1
  = Some in_progress ∧
  pairs (check_event_status_changes no_fault (minutes 7) (minutes 7) sample_db) = [].
Proof. split_and!; reflexivity. Qed.

(** C8, amended.  Pairing succeeds only on an event that has no stored
    pair yet (the status is not read), and a successful pairing of an
    existing event leaves its status [in_progress].  It is not the only
    step that does: the status check of the notification service moves an
    event in [registration] to [in_progress] too, pairs or no pairs. *)
Theorem pairing_guard_and_status rng fault e d :
  (∀ m d1,
     generate_pairs rng fault e d = ((true, m), d1) →
     pairs_of d e = [] ∧
     (is_Some (get_event d e) → status_of d1 e = Some in_progress)) ∧
  (∃ d0 now,
     status_of d0 1 = Some registration ∧ pairs d0 = [] ∧
     status_of (check_event_status_changes no_fault now now d0) 1 = Some in_progress ∧
     pairs (check_event_status_changes no_fault now now d0) = []).
Proof.
  split.
  - intros m d1 (Hn & Hp & l & _ & Hlen & ->)%generate_pairs_success.
    split; [done|]. intros [ev Hev]. rewrite Hev.
    apply status_of_set_status. rewrite get_event_add_pairs. eauto.
  - exists sample_db, (minutes 7). split_and!; reflexivity.
Qed.

Lemma pairing_guard_and_status_witness :
  generate_pairs (λ _, 0) no_fault 1 started_db
  = ((true, PairingDone), (generate_pairs (λ _, 0) no_fault 1 started_db).2) ∧
  pairs_of started_db 1 = [] ∧
  (is_Some (get_event started_db 1) →
   status_of (generate_pairs (λ _, 0) no_fault 1 started_db).2 1 = Some in_progress).
Proof.
  assert (generate_pairs (λ _, 0) no_fault 1 started_db
          = ((true, PairingDone), (generate_pairs (λ _, 0) no_fault 1 started_db).2))
    as H by reflexivity.
  split; [exact H|].
  destruct (pairing_guard_and_status (λ _, 0) no_fault 1 started_db) as [Hrun _].
  exact (Hrun _ _ H).
Defined.

(** X22.  When the first commit to fail is the commit of pair number [n], the
    [n] pairs committed before it stay in the database; the events table
    is as it was.  Nothing is left behind only for [n = 0]. *)
Lemma first_fault_leaves_partial_pairs rng fault e d n :
  3 ≤ length (participants_of d e) →
  pairs_of d e = [] →
  n < length (participants_of d e) →
  fault n = true →
  (∀ k, k < n → fault k = false) →
  ∃ d', generate_pairs rng fault e d = ((false, PairsNotGenerated), d') ∧
        length (pairs_of d' e) = n ∧ events d' = events d.
Proof.
  intros Hn Hp Hlt Hfault Hfirst.
  destruct (generate_pairs_run rng fault e d Hn Hp) as (l & _ & Hlen & ->).
  destruct (create_all fault e l (open_session d)) as [[[]|ex] s] eqn:Hc.
  - pose proof (create_all_Ok_no_fault _ _ _ (open_session d) _ eq_refl Hc n) as Hok.
    simpl in Hok. rewrite Hok in Hfault by lia. done.
  - apply create_all_Exc in Hc as (k & Hk & Hst & Hfk & Hbefore); [|done].
    simpl in *. eexists; split; [done|].
    assert (k = n) as ->.
    { destruct (decide (k < n)) as [Hkn|Hkn]; [by rewrite Hfirst in Hfk|].
      destruct (decide (n < k)) as [Hnk|Hnk]; [by rewrite Hbefore in Hfault|]. lia. }
    rewrite Hst, add_pairs_pairs_of, Hp, add_pairs_events, length_take. simpl.
    split; [lia|done].
Qed.

(** ** Notifications *)

Lemma notify_each_delivered bot read_fault e d l k :
  (notify_each bot read_fault e d l k).1
  = drop_failed bot k (notify_each no_fault read_fault e d l k).1.
Proof.
  revert k. induction l as [|sp rest IH]; intros k; [done|]. simpl.
  destruct (get_recipient_info read_fault (sp_santa_id sp) e d) as [[info|]|ex].
  - destruct (get_participant d (sp_santa_id sp)) as [santa|].
    + specialize (IH (S k)).
      destruct (notify_each bot read_fault e d rest (S k)) as [sent log].
      destruct (notify_each no_fault read_fault e d rest (S k)) as [sent' log'].
      simpl in *. destruct (bot k); simpl; by rewrite IH.
    + specialize (IH k).
      destruct (notify_each bot read_fault e d rest k) as [sent log].
      by destruct (notify_each no_fault read_fault e d rest k) as [sent' log'].
  - apply IH.
  - specialize (IH k).
    destruct (notify_each bot read_fault e d rest k) as [sent log].
    by destruct (notify_each no_fault read_fault e d rest k) as [sent' log'].
Qed.

Lemma notify_each_accounted bot read_fault e d l k :
  length (notify_each bot read_fault e d l k).1
  + length (notify_each bot read_fault e d l k).2
  = length (notify_each no_fault read_fault e d l k).1
    + length (notify_each no_fault read_fault e d l k).2.
Proof.
  revert k. induction l as [|sp rest IH]; intros k; [done|]. simpl.
  destruct (get_recipient_info read_fault (sp_santa_id sp) e d) as [[info|]|ex].
  - destruct (get_participant d (sp_santa_id sp)) as [santa|].
    + specialize (IH (S k)).
      destruct (notify_each bot read_fault e d rest (S k)) as [sent log].
      destruct (notify_each no_fault read_fault e d rest (S k)) as [sent' log'].
      simpl in *. destruct (bot k); simpl; lia.
    + specialize (IH k).
      destruct (notify_each bot read_fault e d rest k) as [sent log].
      destruct (notify_each no_fault read_fault e d rest k) as [sent' log'].
      simpl in *. lia.
  - apply IH.
  - specialize (IH k).
    destruct (notify_each bot read_fault e d rest k) as [sent log].
    destruct (notify_each no_fault read_fault e d rest k) as [sent' log'].
    simpl in *. lia.
Qed.

Lemma get_event_id d e ev : get_event d e = Some ev → ev_id ev = e.
Proof.
  unfold get_event. intros [_ H]%find_some. by apply bool_decide_eq_true in H.
Qed.

(** C9.  Whatever calls of [bot.send_message] raise: the messages
    delivered are those of a run without failures minus exactly the
    failed calls, so a failure does not stop the loop; every failed call
    shows in the log; the answer of the handler and the database it leaves
    are those of the run without failures; and after a successful pairing
    the pairs committed by it are all still stored. *)
Theorem notification_failures_isolated
    rng fault handler_fault bot read_fault now e d :
  (∀ d', (send_pairing_notifications bot read_fault e d').1
         = drop_failed bot 0 (send_pairing_notifications no_fault read_fault e d').1) ∧
  (∀ d', length (send_pairing_notifications bot read_fault e d').1
         + length (send_pairing_notifications bot read_fault e d').2
         = length (send_pairing_notifications no_fault read_fault e d').1
           + length (send_pairing_notifications no_fault read_fault e d').2) ∧
  reply (start_pairing rng fault handler_fault bot read_fault now e d)
  = reply (start_pairing rng fault handler_fault no_fault read_fault now e d) ∧
  database (start_pairing rng fault handler_fault bot read_fault now e d)
  = database (start_pairing rng fault handler_fault no_fault read_fault now e d) ∧
  (∀ m d1 ev,
     generate_pairs rng fault e d = ((true, m), d1) →
     get_event d e = Some ev → (ev_registration_end ev ≤ now)%Z →
     pairs (database (start_pairing rng fault handler_fault bot read_fault now e d))
     = pairs d1 ∧
     reply (start_pairing rng fault handler_fault bot read_fault now e d)
     = if handler_fault then HandlerError DatabaseError else PairingSucceeded m).
Proof.
  split_and!.
  - intros d'. apply notify_each_delivered.
  - intros d'. apply notify_each_accounted.
  - unfold start_pairing. destruct (get_event d e) as [ev|]; [|done].
    repeat case_decide; try done.
    destruct (generate_pairs rng fault e d) as [[[] m] d1]; [|done].
    destruct (send_pairing_notifications bot read_fault e d1).
    destruct (send_pairing_notifications no_fault read_fault e d1).
    by destruct handler_fault.
  - unfold start_pairing. destruct (get_event d e) as [ev|]; [|done].
    repeat case_decide; try done.
    destruct (generate_pairs rng fault e d) as [[[] m] d1]; [|done].
    destruct (send_pairing_notifications bot read_fault e d1).
    destruct (send_pairing_notifications no_fault read_fault e d1).
    by destruct handler_fault.
  - intros m d1 ev Hrun Hev Hend.
    pose proof (generate_pairs_success _ _ _ _ _ _ Hrun) as (Hn & _).
    pose proof (get_event_id _ _ _ Hev) as Hid.
    unfold start_pairing. rewrite Hev, Hid, Hrun.
    rewrite decide_False by lia. rewrite decide_False by lia.
    destruct (send_pairing_notifications bot read_fault e d1).
    by destruct handler_fault.
Qed.

Lemma notification_failures_isolated_witness :
  pairs (database (start_pairing (λ _, 0) no_fault false (fault_at 1) no_fault 5 1 sample_db))
  = pairs (generate_pairs (λ _, 0) no_fault 1 sample_db).2 ∧
  reply (start_pairing (λ _, 0) no_fault false (fault_at 1) no_fault 5 1 sample_db)
  = PairingSucceeded PairingDone.
Proof.
  destruct (notification_failures_isolated
              (λ _, 0) no_fault false (fault_at 1) no_fault 5 1 sample_db)
    as (_ & _ & _ & _ & H).
  apply (H PairingDone _ (sample_event registration 0)); [reflexivity..|].
  vm_compute. discriminate.
Defined.

(** ** [get_recipient_info] *)

Lemma first_pair_of_santa_None d e pid :
  (∀ sp, sp ∈ pairs d → ¬ (sp_event_id sp = e ∧ sp_santa_id sp = pid)) →
  first_pair_of_santa d e pid = None.
Proof.
  intros Hno. unfold first_pair_of_santa.
  destruct (find _ (pairs d)) as [sp|] eqn:Hfind; [|done].
  apply find_some in Hfind as [Hin Hsp].
  apply andb_true_iff in Hsp as [He%bool_decide_eq_true Hs%bool_decide_eq_true].
  destruct (Hno sp); [by apply list_elem_of_In | done].
Qed.

Lemma first_pair_of_santa_Some d e pid sp :
  first_pair_of_santa d e pid = Some sp →
  sp ∈ pairs d ∧ sp_event_id sp = e ∧ sp_santa_id sp = pid.
Proof.
  unfold first_pair_of_santa. intros [Hin Hsp]%find_some.
  apply andb_true_iff in Hsp as [He%bool_decide_eq_true Hs%bool_decide_eq_true].
  split; [by apply list_elem_of_In | done].
Qed.

Lemma or_else_cases o placeholder :
  or_else o placeholder
  = match o with
    | Some s => if decide (s = "") then placeholder else s
    | None => placeholder
    end.
Proof.
  destruct o as [s|]; [|done]. simpl.
  destruct (String.eqb_spec s ""); simpl; by case_decide.
Qed.

Lemma at_username_cases o placeholder :
  at_username o placeholder
  = match o with
    | Some u => if decide (u = "") then placeholder else String.append "@" u
    | None => placeholder
    end.
Proof.
  destruct o as [s|]; [|done]. simpl.
  destruct (String.eqb_spec s ""); simpl; by case_decide.
Qed.

(** C10.  [get_recipient_info] never raises.  It answers [None] when no
    pair of the event has the participant as santa, in particular as long
    as the event has no pair at all, and when the receiver of the pair is
    missing.  When the pair and its receiver are there and read, it
    answers the receiver's first name, and the user name after an [@], the
    wishes, the address and the delivery methods, each replaced by its
    fixed placeholder when it is null or empty. *)
Theorem get_recipient_info_cases read_fault pid e d :
  ∃ r, get_recipient_info read_fault pid e d = Ok r ∧
    ((∀ sp, sp ∈ pairs d → ¬ (sp_event_id sp = e ∧ sp_santa_id sp = pid)) → r = None) ∧
    (pairs_of d e = [] → r = None) ∧
    (∀ sp, first_pair_of_santa d e pid = Some sp →
           get_participant d (sp_receiver_id sp) = None → r = None) ∧
    (∀ sp receiver,
       first_pair_of_santa d e pid = Some sp →
       get_participant d (sp_receiver_id sp) = Some receiver →
       read_fault 0 = false → read_fault 1 = false →
       ∃ info, r = Some info ∧
         name info = p_first_name receiver ∧
         username info
         = match p_username receiver with
           | Some u => if decide (u = "") then not_given else String.append "@" u
           | None => not_given
           end ∧
         wishes info
         = match p_wishes receiver with
           | Some s => if decide (s = "") then not_given_pl else s
           | None => not_given_pl
           end ∧
         address info
         = match p_address receiver with
           | Some s => if decide (s = "") then not_given else s
           | None => not_given
           end ∧
         delivery_methods info
         = match p_delivery_methods receiver with
           | Some s => if decide (s = "") then not_given_pl else s
           | None => not_given_pl
           end).
Proof.
  unfold get_recipient_info, get_recipient_info_try.
  assert ((∀ sp, sp ∈ pairs d → ¬ (sp_event_id sp = e ∧ sp_santa_id sp = pid)) →
          first_pair_of_santa d e pid = None) as Hnone
    by apply first_pair_of_santa_None.
  assert (pairs_of d e = [] → first_pair_of_santa d e pid = None) as Hempty.
  { intros Hp. apply first_pair_of_santa_None. intros sp Hin [He _].
    assert (sp ∈ pairs_of d e) as H.
    { unfold pairs_of. by apply list_elem_of_filter. }
    rewrite Hp in H. by apply elem_of_nil in H. }
  destruct (read_fault 0).
  { exists None. split; [done|]. split_and!; try done. }
  destruct (first_pair_of_santa d e pid) as [sp|] eqn:Hsp.
  2:{ exists None. split; [done|]. split_and!; try done. }
  destruct (read_fault 1).
  { exists None. split; [done|]. split_and!; try done. }
  destruct (get_participant d (sp_receiver_id sp)) as [receiver|] eqn:Hrec.
  2:{ exists None. split; [done|]. split_and!; try done.
      intros sp' receiver' [= <-] Hrec'. by rewrite Hrec in Hrec'. }
  exists (Some (recipient_record receiver)). split; [done|]. split_and!.
  - intros H. by specialize (Hnone H).
  - intros H. by specialize (Hempty H).
  - intros sp' [= <-]. by rewrite Hrec.
  - intros sp' receiver' [= <-] Hrec' _ _.
    rewrite Hrec in Hrec'. injection Hrec' as <-.
    eexists; split; [done|]. simpl.
    by rewrite at_username_cases, !or_else_cases.
Qed.

Lemma get_recipient_info_cases_witness :
  ∃ info,
    get_recipient_info no_fault 3 1 (generate_pairs (λ _, 0) no_fault 1 sample_db).2
    = Ok (Some info) ∧
    name info = "Anna" ∧ username info = not_given ∧ wishes info = not_given_pl ∧
    get_recipient_info no_fault 3 1 sample_db = Ok None.
Proof.
  destruct (get_recipient_info_cases no_fault 3 1
              (generate_pairs (λ _, 0) no_fault 1 sample_db).2)
    as (r & Hr & _ & _ & _ & Hsome).
  destruct (Hsome {| sp_id := 2; sp_event_id := 1; sp_santa_id := 3; sp_receiver_id := 2 |}
                  (sample_participant 2 1 None (Some "")))
    as (info & -> & Hname & Huser & Hwishes & _); [reflexivity..|].
  exists info. split_and!; [exact Hr|exact Hname|exact Huser|exact Hwishes|].
  destruct (get_recipient_info_cases no_fault 3 1 sample_db)
    as (r' & Hr' & _ & Hempty & _).
  rewrite Hr', (Hempty eq_refl). reflexivity.
Defined.

(** * Further properties of the pairing service *)

(** ** What a run of [generate_pairs] can do to the database *)

(** Whatever the answer, the database left is the one found plus some of
    the pairs drawn, plus possibly the new status. *)
Lemma generate_pairs_shape rng fault e d :
  ∃ (l : list (Z * Z)) (flip : bool),
    length l ≤ length (participants_of d e) ∧
    (l ≠ [] → 3 ≤ length (participants_of d e) ∧ pairs_of d e = []) ∧
    (flip = true → (generate_pairs rng fault e d).1 = (true, PairingDone)) ∧
    (generate_pairs rng fault e d).2
    = if flip then apply_change (add_pairs e l d) (SetStatus e in_progress)
      else add_pairs e l d.
Proof.
  destruct (decide (length (participants_of d e) < 3)) as [Hn|Hn].
  { exists [], false. rewrite generate_pairs_too_few by done.
    split_and!; [simpl; lia|done..]. }
  destruct (pairs_of d e) as [|sp sps] eqn:Hp.
  2:{ exists [], false. rewrite generate_pairs_paired; [|lia|rewrite Hp; simpl; lia].
      split_and!; [simpl; lia|done..]. }
  destruct (generate_pairs_run rng fault e d) as (l & _ & Hlen & ->); [lia|done|].
  destruct (create_all fault e l (open_session d)) as [[[]|ex] s] eqn:Hc.
  - destruct (get_event d e).
    + destruct (fault (length l)).
      * exists l, false. split_and!; [lia|intros; split; [lia|done]|done..].
      * exists l, true. split_and!; [lia|intros; split; [lia|done]|done..].
    + exists l, false. split_and!; [lia|intros; split; [lia|done]|done..].
  - apply create_all_Exc in Hc as (n & Hn' & -> & _); [|done]. simpl.
    exists (take n l), false. rewrite length_take.
    split_and!; [lia|intros; split; [lia|done]|done..].
Qed.

Lemma pairs_of_add_pairs_ne e e' l d :
  e' ≠ e → pairs_of (add_pairs e l d) e' = pairs_of d e'.
Proof.
  intros Hne. destruct (add_pairs_pairs e l d) as (rows & Hrows & He & _).
  unfold pairs_of. rewrite Hrows, filter_app.
  assert (filter (λ sp, sp_event_id sp = e') rows = []) as ->.
  { clear -He Hne. induction He as [|sp rows Hsp _ IH]; [done|].
    rewrite filter_cons_False by congruence. done. }
  by rewrite app_nil_r.
Qed.

Lemma get_event_set_status_ne d e e' status :
  e' ≠ e →
  status_of (apply_change d (SetStatus e status)) e' = status_of d e'.
Proof.
  intros Hne. unfold status_of, get_event. simpl.
  induction (events d) as [|ev evs IH]; [done|].
  rewrite fmap_cons. simpl.
  destruct (decide (ev_id ev = e')) as [Heq|Hneq].
  - rewrite !bool_decide_true by (by rewrite ?ev_id_set_status). simpl.
    unfold set_status. by rewrite decide_False by congruence.
  - rewrite !bool_decide_false by (by rewrite ?ev_id_set_status). done.
Qed.

(** X1.  Whatever its answer, a run of [generate_pairs] for event [e]
    leaves the participants alone, keeps every pair that was stored and
    only appends pairs of [e], and touches neither the pairs nor the
    status of any other event. *)
Theorem generate_pairs_frame rng fault e d :
  participants (generate_pairs rng fault e d).2 = participants d ∧
  (∃ rows, pairs (generate_pairs rng fault e d).2 = pairs d ++ rows ∧
           Forall (λ sp, sp_event_id sp = e) rows ∧
           length rows ≤ length (participants_of d e)) ∧
  (∀ e', e' ≠ e →
     pairs_of (generate_pairs rng fault e d).2 e' = pairs_of d e' ∧
     status_of (generate_pairs rng fault e d).2 e' = status_of d e').
Proof.
  destruct (generate_pairs_shape rng fault e d) as (l & flip & Hlen & _ & _ & ->).
  destruct (add_pairs_pairs e l d) as (rows & Hrows & He & Hl).
  assert (length rows = length l) as Hrl by (by rewrite <-Hl, length_fmap).
  split_and!.
  - destruct flip; simpl; apply add_pairs_participants.
  - exists rows. destruct flip; simpl; (split_and!; [done|done|lia]).
  - intros e' Hne. split.
    + destruct flip; [unfold pairs_of; simpl|]; by apply pairs_of_add_pairs_ne.
    + destruct flip.
      * rewrite get_event_set_status_ne by done.
        unfold status_of. by rewrite get_event_add_pairs.
      * unfold status_of. by rewrite get_event_add_pairs.
Qed.

(** X2.  A run that did not succeed leaves every status as it was: the
    events table is the one it found. *)
Theorem failed_run_keeps_events rng fault e d m d1 :
  generate_pairs rng fault e d = ((false, m), d1) →
  events d1 = events d.
Proof.
  intros Hrun.
  destruct (generate_pairs_shape rng fault e d) as (l & flip & _ & _ & Hflip & Hd).
  rewrite Hrun in Hflip, Hd. simpl in *. subst d1.
  destruct flip; [by specialize (Hflip eq_refl)|].
  apply add_pairs_events.
Qed.

Lemma failed_run_keeps_events_witness :
  events (generate_pairs (λ _, 0) (fault_at 3) 1 sample_db).2 = events sample_db.
Proof.
  apply (failed_run_keeps_events (λ _, 0) (fault_at 3) 1 sample_db PairsNotGenerated).
  reflexivity.
Defined.

(** X3.  A run that failed after it had stored a pair cannot be made
    good: every later run on the event, whatever its random source and
    faults, answers [AlreadyPaired] and changes nothing, so the event
    keeps its incomplete pairs. *)
Theorem partial_failure_blocks_retry rng fault e d m d1 rng2 fault2 :
  generate_pairs rng fault e d = ((false, m), d1) →
  pairs_of d e = [] →
  pairs_of d1 e ≠ [] →
  generate_pairs rng2 fault2 e d1 = ((false, AlreadyPaired), d1).
Proof.
  intros Hrun Hp Hp1.
  destruct (generate_pairs_shape rng fault e d) as (l & flip & _ & Hl & Hflip & Hd).
  rewrite Hrun in Hflip, Hd. simpl in *. subst d1.
  destruct flip; [by specialize (Hflip eq_refl)|].
  destruct l as [|gr l].
  { change (add_pairs e [] d) with d in Hp1. by rewrite Hp in Hp1. }
  destruct Hl as [Hn _]; [done|].
  apply generate_pairs_paired.
  - unfold participants_of in *. by rewrite add_pairs_participants.
  - destruct (pairs_of (add_pairs e (gr :: l) d) e); [done|simpl; lia].
Qed.

Lemma partial_failure_blocks_retry_witness :
  generate_pairs (λ _, 5) no_fault 1 (generate_pairs (λ _, 0) (fault_at 1) 1 sample_db).2
  = ((false, AlreadyPaired), (generate_pairs (λ _, 0) (fault_at 1) 1 sample_db).2).
Proof.
  apply (partial_failure_blocks_retry (λ _, 0) (fault_at 1) 1 sample_db PairsNotGenerated).
  - reflexivity.
  - reflexivity.
  - vm_compute. discriminate.
Defined.

(** ** Looking pairs up after a successful run *)

Section FindFacts.
Context {A : Type}.
Implicit Types (f : A → bool) (l : list A).

Lemma find_app_None f l1 l2 :
  find f l1 = None → find f (l1 ++ l2) = find f l2.
Proof.
  induction l1 as [|x l1 IH]; [done|]. simpl.
  destruct (f x); [done|]. apply IH.
Qed.

Lemma find_is_Some f l x : x ∈ l → f x = true → is_Some (find f l).
Proof.
  intros Hin Hx. destruct (find f l) as [y|] eqn:Hfind; [by eexists|].
  apply list_elem_of_In in Hin.
  by rewrite (find_none f l Hfind x Hin) in Hx.
Qed.

Lemma find_Some_elem f l x : find f l = Some x → x ∈ l ∧ f x = true.
Proof. intros [Hin Hx]%find_some. split; [by apply list_elem_of_In|done]. Qed.

Lemma NoDup_fmap_elem_inj {B} (g : A → B) l x y :
  NoDup (g <$> l) → x ∈ l → y ∈ l → g x = g y → x = y.
Proof.
  intros Hnd [i Hi]%list_elem_of_lookup [j Hj]%list_elem_of_lookup Heq.
  assert ((g <$> l) !! i = Some (g x)) as Hgi by (by rewrite list_lookup_fmap, Hi).
  assert ((g <$> l) !! j = Some (g x)) as Hgj
    by (by rewrite list_lookup_fmap, Hj, Heq).
  pose proof (NoDup_lookup _ _ _ _ Hnd Hgi Hgj) as ->. congruence.
Qed.
End FindFacts.

Lemma NoDup_participants_of d e :
  NoDup (p_id <$> participants d) → NoDup (p_id <$> participants_of d e).
Proof.
  intros Hnd. eapply sublist_NoDup; [exact Hnd|].
  apply fmap_sublist, sublist_filter.
Qed.

(** With the primary key unique, looking a participant up by id finds it. *)
Lemma get_participant_elem d p :
  NoDup (p_id <$> participants d) → p ∈ participants d →
  get_participant d (p_id p) = Some p.
Proof.
  intros Hnd Hin. unfold get_participant.
  destruct (find_is_Some (λ q, bool_decide (p_id q = p_id p)) (participants d) p)
    as [q Hq]; [done|by apply bool_decide_eq_true|].
  rewrite Hq. apply find_Some_elem in Hq as [Hqin Hqid%bool_decide_eq_true].
  f_equal. by apply (NoDup_fmap_elem_inj p_id (participants d)).
Qed.

(** The rows a successful run has stored. *)
Lemma success_rows rng fault e d m d1 :
  generate_pairs rng fault e d = ((true, m), d1) →
  ∃ P R rows,
    P ≡ₚ p_id <$> participants_of d e ∧ make_receivers P = Some R ∧ R ≡ₚ P ∧
    pairs d1 = pairs d ++ rows ∧ pairs_of d1 e = rows ∧
    sp_santa_id <$> rows = P ∧ sp_receiver_id <$> rows = R ∧
    participants d1 = participants d ∧
    pairs_of d e = [] ∧ 3 ≤ length (participants_of d e).
Proof.
  intros (Hn & Hp & l & Hdraw & Hlen & Hd1)%generate_pairs_success.
  destruct (draw_pairs_inv rng (p_id <$> participants_of d e))
    as (P & R & _ & HP & HR & HRP & Hzip).
  assert (l = zip P R) as -> by congruence.
  destruct (add_pairs_pairs e (zip P R) d) as (rows & Hrows & He & Hl).
  destruct (zip_receivers_coverage P R HR) as (_ & Hfst & Hsnd & _).
  exists P, R, rows.
  assert (pairs d1 = pairs d ++ rows ∧ participants d1 = participants d) as [Hp1 Hpa1].
  { subst d1. destruct (get_event d e); simpl; by rewrite ?add_pairs_participants. }
  split_and!; try done.
  - unfold pairs_of in *. rewrite Hp1, filter_app, Hp. simpl.
    clear -He. induction He as [|sp rows Hsp _ IH]; [done|].
    rewrite filter_cons_True by done. by rewrite IH.
  - transitivity ((zip P R).*1); [|done].
    rewrite <-Hl, <-list_fmap_compose. by apply list_fmap_ext.
  - transitivity ((zip P R).*2); [|done].
    rewrite <-Hl, <-list_fmap_compose. by apply list_fmap_ext.
Qed.

(** X4.  After a successful run on participants with distinct ids, the
    pairs stored for the event are one per participant: their santas are
    the participants, each once, their receivers are the participants,
    each once, and no stored pair has santa and receiver equal. *)
Theorem stored_pairs_derangement rng fault e d m d1 :
  NoDup (p_id <$> participants_of d e) →
  generate_pairs rng fault e d = ((true, m), d1) →
  length (pairs_of d1 e) = length (participants_of d e) ∧
  sp_santa_id <$> pairs_of d1 e ≡ₚ p_id <$> participants_of d e ∧
  sp_receiver_id <$> pairs_of d1 e ≡ₚ p_id <$> participants_of d e ∧
  Forall (λ sp, sp_santa_id sp ≠ sp_receiver_id sp) (pairs_of d1 e).
Proof.
  intros Hnd Hrun.
  pose proof (stored_pairs_no_self _ _ _ _ _ _ Hnd Hrun) as Hself.
  destruct (success_rows _ _ _ _ _ _ Hrun)
    as (P & R & rows & HP & HR & HRP & _ & Hrows & Hs & Hr & _).
  rewrite Hrows in *.
  split_and!; [|by rewrite Hs|by rewrite Hr, HRP, HP|done].
  rewrite <-(length_fmap sp_santa_id), Hs, HP. apply length_fmap.
Qed.

Lemma stored_pairs_derangement_witness :
  length (pairs_of (generate_pairs (λ _, 0) no_fault 1 sample_db).2 1) = 3 ∧
  sp_santa_id <$> pairs_of (generate_pairs (λ _, 0) no_fault 1 sample_db).2 1
  ≡ₚ [1; 2; 3]%Z ∧
  sp_receiver_id <$> pairs_of (generate_pairs (λ _, 0) no_fault 1 sample_db).2 1
  ≡ₚ [1; 2; 3]%Z ∧
  Forall (λ sp, sp_santa_id sp ≠ sp_receiver_id sp)
         (pairs_of (generate_pairs (λ _, 0) no_fault 1 sample_db).2 1).
Proof.
  apply (stored_pairs_derangement (λ _, 0) no_fault 1 sample_db PairingDone).
  - apply (bool_decide_unpack _). vm_compute. exact I.
  - reflexivity.
Defined.

Lemma find_pair_other_event d e (g : SantaPair → bool) :
  pairs_of d e = [] →
  find (λ sp, bool_decide (sp_event_id sp = e) && g sp) (pairs d) = None.
Proof.
  intros Hp. destruct (find _ (pairs d)) as [sp|] eqn:Hfind; [|done].
  apply find_Some_elem in Hfind as [Hin Hsp].
  apply andb_true_iff in Hsp as [He%bool_decide_eq_true _].
  assert (sp ∈ pairs_of d e) as H by (by apply list_elem_of_filter).
  rewrite Hp in H. by apply elem_of_nil in H.
Qed.

(** After a successful run every participant of the event is found as a
    santa. *)
Lemma santa_row_found rng fault e d m d1 q :
  generate_pairs rng fault e d = ((true, m), d1) →
  q ∈ participants_of d e →
  ∃ sp, first_pair_of_santa d1 e (p_id q) = Some sp ∧
        sp ∈ pairs_of d1 e ∧ sp_santa_id sp = p_id q.
Proof.
  intros Hrun Hq.
  destruct (success_rows _ _ _ _ _ _ Hrun)
    as (P & R & rows & HP & HR & HRP & Hp1 & Hrows & Hs & Hr & Hpa & Hp & Hn).
  assert (p_id q ∈ sp_santa_id <$> rows) as Hin.
  { rewrite Hs, HP. by apply list_elem_of_fmap_2. }
  apply list_elem_of_fmap in Hin as (sp0 & Hid & Hsp0).
  assert (sp_event_id sp0 = e) as He0.
  { rewrite <-Hrows in Hsp0. by apply list_elem_of_filter in Hsp0 as [? _]. }
  unfold first_pair_of_santa. rewrite Hp1.
  rewrite find_app_None by (by apply find_pair_other_event).
  destruct (find_is_Some
              (λ sp, bool_decide (sp_event_id sp = e)
                     && bool_decide (sp_santa_id sp = p_id q)) rows sp0)
    as [sp Hsp]; [done| |].
  { by rewrite !bool_decide_true. }
  exists sp. split; [done|].
  apply find_Some_elem in Hsp as [Hin Hf].
  apply andb_true_iff in Hf as [_ Hsanta%bool_decide_eq_true].
  by rewrite Hrows.
Qed.

(** With unique participant ids, the pair of a participant, its receiver,
    and the way back from the receiver to the pair. *)
Lemma paired_lookup rng fault e d m d1 p :
  NoDup (p_id <$> participants d) →
  generate_pairs rng fault e d = ((true, m), d1) →
  p ∈ participants_of d e →
  ∃ sp receiver,
    first_pair_of_santa d1 e (p_id p) = Some sp ∧
    sp_santa_id sp = p_id p ∧ sp_receiver_id sp = p_id receiver ∧
    receiver ∈ participants_of d e ∧ p_id receiver ≠ p_id p ∧
    get_participant d1 (p_id receiver) = Some receiver ∧
    get_participant d1 (p_id p) = Some p ∧
    first_pair_of_receiver d1 e (p_id receiver) = Some sp.
Proof.
  intros Hnd Hrun Hp.
  pose proof (NoDup_participants_of d e Hnd) as Hnde.
  destruct (santa_row_found _ _ _ _ _ _ _ Hrun Hp) as (sp & Hfirst & Hsp & Hsanta).
  pose proof (stored_pairs_no_self _ _ _ _ _ _ Hnde Hrun) as Hself.
  destruct (success_rows _ _ _ _ _ _ Hrun)
    as (P & R & rows & HP & HR & HRP & Hp1 & Hrows & Hs & Hr & Hpa & Hp0 & Hn).
  assert (sp_receiver_id sp ∈ p_id <$> participants_of d e) as Hrec.
  { rewrite <-HP, <-HRP, <-Hr, <-Hrows. by apply list_elem_of_fmap_2. }
  apply list_elem_of_fmap in Hrec as (receiver & Hrid & Hreceiver).
  assert (∀ q, q ∈ participants_of d e → get_participant d1 (p_id q) = Some q) as Hget.
  { intros q [_ Hq]%list_elem_of_filter. unfold get_participant. rewrite Hpa.
    by apply get_participant_elem. }
  exists sp, receiver. split_and!; try done.
  - rewrite <-Hrid, <-Hsanta.
    intros Heq. by apply (proj1 (Forall_forall _ _) Hself sp Hsp).
  - by apply Hget.
  - by apply Hget.
  - unfold first_pair_of_receiver. rewrite Hp1.
    rewrite find_app_None by (by apply find_pair_other_event).
    rewrite Hrows in Hsp.
    assert (sp_event_id sp = e) as He.
    { rewrite <-Hrows in Hsp. by apply list_elem_of_filter in Hsp as [? _]. }
    destruct (find_is_Some
                (λ sp', bool_decide (sp_event_id sp' = e)
                        && bool_decide (sp_receiver_id sp' = p_id receiver)) rows sp)
      as [sp' Hsp']; [done| |].
    { by rewrite !bool_decide_true. }
    rewrite Hsp'. f_equal.
    apply find_Some_elem in Hsp' as [Hin' Hf].
    apply andb_true_iff in Hf as [_ Hr'%bool_decide_eq_true].
    apply (NoDup_fmap_elem_inj sp_receiver_id rows); [|done|done|congruence].
    by rewrite Hr, HRP, HP.
Qed.

(** X5.  After a successful run, with unique participant ids and reads
    that succeed, [get_recipient_info] answers for every participant of
    the event the record of a receiver, and that receiver is another
    participant of the same event. *)
Theorem everyone_has_a_recipient rng fault e d m d1 p :
  NoDup (p_id <$> participants d) →
  generate_pairs rng fault e d = ((true, m), d1) →
  p ∈ participants_of d e →
  ∃ receiver,
    receiver ∈ participants_of d e ∧ p_id receiver ≠ p_id p ∧
    get_recipient_info no_fault (p_id p) e d1 = Ok (Some (recipient_record receiver)).
Proof.
  intros Hnd Hrun Hp.
  destruct (paired_lookup _ _ _ _ _ _ _ Hnd Hrun Hp)
    as (sp & receiver & Hfirst & _ & Hrid & Hin & Hne & Hget & _).
  exists receiver. split_and!; [done..|].
  unfold get_recipient_info, get_recipient_info_try. simpl.
  by rewrite Hfirst, Hrid, Hget.
Qed.

Lemma everyone_has_a_recipient_witness :
  ∃ receiver,
    receiver ∈ participants_of sample_db 1 ∧
    p_id receiver ≠ 1%Z ∧
    get_recipient_info no_fault 1 1 (generate_pairs (λ _, 0) no_fault 1 sample_db).2
    = Ok (Some (recipient_record receiver)).
Proof.
  apply (everyone_has_a_recipient (λ _, 0) no_fault 1 sample_db PairingDone _
           (sample_participant 1 1 (Some "anna") (Some "books"))).
  - apply (bool_decide_unpack _). vm_compute. exact I.
  - reflexivity.
  - apply list_elem_of_filter. split; [reflexivity|]. apply list_elem_of_here.
Defined.

(** X6.  After a successful run, with unique participant ids and reads
    that succeed, the two lookups are inverse to each other: the santa
    that [get_santa_info] names to the receiver of a participant is that
    participant. *)
Theorem recipient_santa_round_trip rng fault e d m d1 p :
  NoDup (p_id <$> participants d) →
  generate_pairs rng fault e d = ((true, m), d1) →
  p ∈ participants_of d e →
  ∃ receiver,
    get_recipient_info no_fault (p_id p) e d1 = Ok (Some (recipient_record receiver)) ∧
    get_santa_info no_fault (p_id receiver) e d1 = Ok (Some (santa_record p)).
Proof.
  intros Hnd Hrun Hp.
  destruct (paired_lookup _ _ _ _ _ _ _ Hnd Hrun Hp)
    as (sp & receiver & Hfirst & Hsid & Hrid & Hin & Hne & Hget & Hgetp & Hback).
  exists receiver. split.
  - unfold get_recipient_info, get_recipient_info_try. simpl.
    by rewrite Hfirst, Hrid, Hget.
  - unfold get_santa_info, get_santa_info_try. simpl.
    by rewrite Hback, Hsid, Hgetp.
Qed.

Lemma recipient_santa_round_trip_witness :
  ∃ receiver,
    get_recipient_info no_fault 1 1 (generate_pairs (λ _, 0) no_fault 1 sample_db).2
    = Ok (Some (recipient_record receiver)) ∧
    get_santa_info no_fault (p_id receiver) 1
      (generate_pairs (λ _, 0) no_fault 1 sample_db).2
    = Ok (Some (santa_record (sample_participant 1 1 (Some "anna") (Some "books")))).
Proof.
  apply (recipient_santa_round_trip (λ _, 0) no_fault 1 sample_db PairingDone _
           (sample_participant 1 1 (Some "anna") (Some "books"))).
  - apply (bool_decide_unpack _). vm_compute. exact I.
  - reflexivity.
  - apply list_elem_of_filter. split; [reflexivity|]. apply list_elem_of_here.
Defined.

(** ** Callers of the pairing service after a successful run *)

(** X7.  [check_pairing] follows the draw: for a participant of the event
    it answers that the draw has not been held as long as the event has
    no pair, and answers yes after a successful run. *)
Theorem check_pairing_follows_draw rng fault e d m d1 p :
  generate_pairs rng fault e d = ((true, m), d1) →
  p ∈ participants_of d e →
  check_pairing (p_telegram_id p) e d = (false, NotDrawnYet) ∧
  check_pairing (p_telegram_id p) e d1 = (true, NoNote).
Proof.
  intros Hrun Hp.
  destruct (success_rows _ _ _ _ _ _ Hrun)
    as (_ & _ & _ & _ & _ & _ & _ & _ & _ & _ & Hpa & Hp0 & _).
  apply list_elem_of_filter in Hp as [He Hin].
  destruct (find_is_Some
              (λ q, bool_decide (p_event_id q = e)
                    && bool_decide (p_telegram_id q = p_telegram_id p))
              (participants d) p) as [q Hq]; [done| |].
  { by rewrite !bool_decide_true. }
  pose proof Hq as Hq'.
  apply find_Some_elem in Hq' as [Hqin Hf].
  apply andb_true_iff in Hf as [Hqe%bool_decide_eq_true _].
  assert (q ∈ participants_of d e) as Hqp by (by apply list_elem_of_filter).
  destruct (santa_row_found _ _ _ _ _ _ _ Hrun Hqp) as (sp & Hsp & _).
  unfold check_pairing, get_participant_by_telegram. rewrite Hpa, Hq. split.
  - unfold get_santa_pair. by rewrite find_pair_other_event.
  - unfold get_santa_pair. unfold first_pair_of_santa in Hsp. by rewrite Hsp.
Qed.

Lemma check_pairing_follows_draw_witness :
  check_pairing 1002 1 sample_db = (false, NotDrawnYet) ∧
  check_pairing 1002 1 (generate_pairs (λ _, 0) no_fault 1 sample_db).2 = (true, NoNote).
Proof.
  apply (check_pairing_follows_draw (λ _, 0) no_fault 1 sample_db PairingDone _
           (sample_participant 2 1 None (Some ""))).
  - reflexivity.
  - apply list_elem_of_filter. split; [reflexivity|].
    apply list_elem_of_further, list_elem_of_here.
Defined.

Lemma notify_each_good read_fault e d l k :
  Forall (λ sp, is_Some (notice_of read_fault e d sp)) l →
  notify_each no_fault read_fault e d l k = (omap (notice_of read_fault e d) l, []).
Proof.
  intros Hall. revert k. induction Hall as [|sp rest [n Hn] _ IH]; intros k; [done|].
  simpl. rewrite Hn. unfold notice_of in Hn.
  destruct (get_recipient_info read_fault (sp_santa_id sp) e d) as [[info|]|ex]; [|done..].
  destruct (get_participant d (sp_santa_id sp)) as [santa|]; [|done].
  rewrite IH. simpl. by simplify_eq.
Qed.

(** After a successful run the notification of every stored pair goes to
    the chat of its santa. *)
Lemma notices_after_success rng fault e d m d1 :
  NoDup (p_id <$> participants d) →
  generate_pairs rng fault e d = ((true, m), d1) →
  Forall (λ sp, ∃ n, notice_of no_fault e d1 sp = Some n
                     ∧ n.1 = chat_of d1 (sp_santa_id sp)) (pairs_of d1 e).
Proof.
  intros Hnd Hrun.
  destruct (success_rows _ _ _ _ _ _ Hrun)
    as (P & R & rows & HP & HR & HRP & Hp1 & Hrows & Hs & Hr & Hpa & Hp0 & Hn).
  apply Forall_forall. intros sp Hsp.
  assert (sp_santa_id sp ∈ p_id <$> participants_of d e) as Hin.
  { rewrite <-HP, <-Hs, <-Hrows. by apply list_elem_of_fmap_2. }
  apply list_elem_of_fmap in Hin as (p & Hid & Hp).
  destruct (paired_lookup _ _ _ _ _ _ _ Hnd Hrun Hp)
    as (sp' & receiver & Hfirst & _ & Hrid & _ & _ & Hget & Hgetp & _).
  unfold notice_of, chat_of, get_recipient_info, get_recipient_info_try. simpl.
  rewrite Hid, Hfirst, Hrid, Hget, Hgetp. by eexists.
Qed.

Lemma notifications_complete rng fault e d m d1 :
  NoDup (p_id <$> participants d) →
  generate_pairs rng fault e d = ((true, m), d1) →
  (send_pairing_notifications no_fault no_fault e d1).2 = [] ∧
  (send_pairing_notifications no_fault no_fault e d1).1.*1
  ≡ₚ p_telegram_id <$> participants_of d e.
Proof.
  intros Hnd Hrun.
  pose proof (notices_after_success _ _ _ _ _ _ Hnd Hrun) as Hall.
  unfold send_pairing_notifications.
  rewrite notify_each_good.
  2:{ eapply Forall_impl; [exact Hall|]. intros sp (n & Hn & _). by eexists. }
  split; [done|]. simpl.
  destruct (success_rows _ _ _ _ _ _ Hrun)
    as (P & R & rows & HP & HR & HRP & Hp1 & Hrows & Hs & Hr & Hpa & Hp0 & Hn).
  assert ((omap (notice_of no_fault e d1) (pairs_of d1 e)).*1
          = chat_of d1 <$> (sp_santa_id <$> pairs_of d1 e)) as ->.
  { clear -Hall. induction Hall as [|sp rest (n & Hn & Hchat) _ IH]; [done|].
    change (omap (notice_of no_fault e d1) (sp :: rest))
      with (match notice_of no_fault e d1 sp with
            | Some y => y :: omap (notice_of no_fault e d1) rest
            | None => omap (notice_of no_fault e d1) rest
            end).
    rewrite Hn, !fmap_cons. by rewrite IH, Hchat. }
  rewrite Hrows, Hs, HP, <-list_fmap_compose.
  assert (chat_of d1 ∘ p_id <$> participants_of d e
          = p_telegram_id <$> participants_of d e) as ->; [|done].
  apply list_fmap_ext. intros i p Hp. simpl.
  apply list_elem_of_lookup_2, list_elem_of_filter in Hp as [_ Hin].
  unfold chat_of.
  replace (get_participant d1 (p_id p)) with (get_participant d (p_id p))
    by (unfold get_participant; by rewrite Hpa).
  by rewrite (get_participant_elem d p Hnd Hin).
Qed.

(** X8.  After a successful run on participants with unique ids, with
    reads that succeed: whatever calls of [bot.send_message] fail, every
    participant of the event is accounted for, by a delivered message or
    by a log entry; and when no call fails, the log is empty and the
    chats reached are those of the participants, each once. *)
Theorem pairing_notifications_reach_everyone rng fault e d m d1 :
  NoDup (p_id <$> participants d) →
  generate_pairs rng fault e d = ((true, m), d1) →
  (∀ bot, length (send_pairing_notifications bot no_fault e d1).1
          + length (send_pairing_notifications bot no_fault e d1).2
          = length (participants_of d e)) ∧
  (send_pairing_notifications no_fault no_fault e d1).2 = [] ∧
  (send_pairing_notifications no_fault no_fault e d1).1.*1
  ≡ₚ p_telegram_id <$> participants_of d e.
Proof.
  intros Hnd Hrun.
  destruct (notifications_complete _ _ _ _ _ _ Hnd Hrun) as [Hlog Hchats].
  split; [|done]. intros bot.
  unfold send_pairing_notifications in *.
  rewrite notify_each_accounted, Hlog. simpl.
  rewrite Nat.add_0_r, <-(length_fmap fst), Hchats. apply length_fmap.
Qed.

Lemma pairing_notifications_reach_everyone_witness :
  (send_pairing_notifications no_fault no_fault 1
     (generate_pairs (λ _, 0) no_fault 1 sample_db).2).1.*1
  ≡ₚ [1001; 1002; 1003]%Z.
Proof.
  apply (pairing_notifications_reach_everyone (λ _, 0) no_fault 1 sample_db PairingDone).
  - apply (bool_decide_unpack _). vm_compute. exact I.
  - reflexivity.
Defined.

(** ** The [start_pairing] handler from end to end *)





(** X9.  When the event exists, its registration has ended, it has at
    least three participants with unique ids and no pair yet, and nothing
    fails, the handler answers that the pairing succeeded, the event is
    [in_progress], one pair per participant is stored, nothing is logged
    and every participant's chat got one message. *)
Theorem start_pairing_succeeds rng now e d ev :
  NoDup (p_id <$> participants d) →
  get_event d e = Some ev →
  (ev_registration_end ev ≤ now)%Z →
  3 ≤ length (participants_of d e) →
  pairs_of d e = [] →
  let run := start_pairing rng no_fault false no_fault no_fault now e d in
  reply run = PairingSucceeded PairingDone ∧
  status_of (database run) e = Some in_progress ∧
  length (pairs_of (database run) e) = length (participants_of d e) ∧
  logged run = [] ∧
  (delivered run).*1 ≡ₚ p_telegram_id <$> participants_of d e.
Proof.
  intros Hnd Hev Hend Hn Hp.
  destruct (generate_pairs_succeeds rng e d Hn Hp) as (d1 & Hrun & Hlen).
  destruct (notifications_complete _ _ _ _ _ _ Hnd Hrun) as [Hlog Hchats].
  pose proof (get_event_id _ _ _ Hev) as Hid.
  assert (status_of d1 e = Some in_progress) as Hst.
  { apply generate_pairs_success in Hrun as (_ & _ & l & _ & _ & ->).
    rewrite Hev. apply status_of_set_status. rewrite get_event_add_pairs. eauto. }
  unfold start_pairing. rewrite Hev, Hid, Hrun.
  rewrite decide_False by lia. rewrite decide_False by lia.
  destruct (send_pairing_notifications no_fault no_fault e d1) as [sent log].
  simpl in *. split_and!; try done.
  apply status_of_set_status. unfold status_of in Hst.
  destruct (get_event d1 e); [by eexists|done].
Qed.

Lemma start_pairing_succeeds_witness :
  let run := start_pairing (λ _, 0) no_fault false no_fault no_fault 5 1 sample_db in
  reply run = PairingSucceeded PairingDone ∧
  status_of (database run) 1 = Some in_progress ∧
  length (pairs_of (database run) 1) = 3 ∧
  logged run = [] ∧
  (delivered run).*1 ≡ₚ [1001; 1002; 1003]%Z.
Proof.
  apply (start_pairing_succeeds (λ _, 0) 5 1 sample_db (sample_event registration 0)).
  - apply (bool_decide_unpack _). vm_compute. exact I.
  - reflexivity.
  - vm_compute. discriminate.
  - simpl. lia.
  - reflexivity.
Defined.



(** ** The status check of the notification service *)

Lemma flip_status_events status d ev :
  events (flip_status status d ev) = set_status (ev_id ev) status <$> events d.
Proof. done. Qed.

Lemma foldl_flip_frame status l d :
  participants (foldl (flip_status status) d l) = participants d ∧
  pairs (foldl (flip_status status) d l) = pairs d.
Proof.
  revert d. induction l as [|ev l IH]; intros d; [done|]. simpl.
  destruct (IH (flip_status status d ev)) as [-> ->]. done.
Qed.

Lemma foldl_flip_events status l d :
  events (foldl (flip_status status) d l) = phase_map status l <$> events d.
Proof.
  revert d. induction l as [|x l IH]; intros d; simpl.
  { rewrite <-(list_fmap_id (events d)) at 1.
    apply list_fmap_ext. intros i ev _. unfold phase_map.
    case_decide as H; [|done]. by apply elem_of_nil in H. }
  rewrite IH, flip_status_events, <-list_fmap_compose.
  apply list_fmap_ext. intros i ev _. simpl.
  unfold phase_map, set_status. rewrite fmap_cons.
  destruct (decide (ev_id ev = ev_id x)) as [Heq|Hne].
  - rewrite (decide_True (P := ev_id ev ∈ ev_id x :: _))
      by (rewrite Heq; apply list_elem_of_here).
    simpl. by case_decide.
  - destruct (decide (ev_id ev ∈ ev_id <$> l)) as [Hin|Hnin].
    + by rewrite decide_True by (by apply list_elem_of_further).
    + rewrite decide_False; [done|].
      intros [?|?]%elem_of_cons; done.
Qed.

Lemma set_status_each_run fault status l s :
  pending s = [] →
  ∃ n, store (set_status_each fault status l s).2
       = foldl (flip_status status) (store s) (take n l) ∧
       (∀ u, (set_status_each fault status l s).1 = Ok u →
             pending (set_status_each fault status l s).2 = []
             ∧ (fault = no_fault → n = length l)) ∧
       (fault = no_fault → ∃ u, (set_status_each fault status l s).1 = Ok u).
Proof.
  revert s. induction l as [|ev l IH]; intros s Hs.
  { exists 0. simpl. split; [done|]. split; [intros u _; by split|].
    intros _. by eexists. }
  assert (set_status_each fault status (ev :: l) s
          = if fault (commits s)
            then (Exc DatabaseError,
                  {| store := store s; pending := [SetStatus (ev_id ev) status];
                     commits := S (commits s) |})
            else set_status_each fault status l
                   {| store := flip_status status (store s) ev; pending := [];
                      commits := S (commits s) |}) as ->.
  { simpl. unfold bind, db_add, db_commit. simpl. rewrite Hs. simpl.
    by destruct (fault (commits s)). }
  destruct (fault (commits s)) eqn:Hf.
  - exists 0. simpl. split; [done|]. split; [intros u Hu; discriminate Hu|].
    intros ->. done.
  - match goal with |- context [set_status_each fault status l ?s'] =>
      destruct (IH s' eq_refl) as (n & Hst & Hres & Hnf) end.
    exists (S n). split; [done|]. split; [|done].
    intros u Hu. destruct (Hres u Hu) as [Hpe Hn].
    split; [done|]. intros H. simpl. by rewrite Hn.
Qed.

Lemma check_unfold fault now1 now2 d :
  check_event_status_changes fault now1 now2 d
  = match set_status_each fault in_progress (events_started d now1) (open_session d) with
    | (Ok _, s1) =>
        store (set_status_each fault completed (events_ended (store s1) now2) s1).2
    | (Exc _, s1) => store s1
    end.
Proof.
  unfold check_event_status_changes, check_event_status_changes_body, bind, get_store,
    events_started, events_ended.
  cbn [fst snd store open_session].
  by destruct (set_status_each fault in_progress _ (open_session d)) as [[[]|ex] s1].
Qed.

(** The database the status check leaves, as the statuses committed by
    its two loops. *)
Lemma check_shape fault now1 now2 d :
  ∃ l1 l2,
    l1 ⊆ events_started d now1 ∧
    l2 ⊆ events_ended (foldl (flip_status in_progress) d l1) now2 ∧
    (fault = no_fault →
       l1 = events_started d now1 ∧
       l2 = events_ended (foldl (flip_status in_progress) d l1) now2) ∧
    check_event_status_changes fault now1 now2 d
    = foldl (flip_status completed) (foldl (flip_status in_progress) d l1) l2.
Proof.
  rewrite check_unfold.
  destruct (set_status_each_run fault in_progress (events_started d now1)
              (open_session d) eq_refl) as (n1 & Hst1 & Hres1 & Hnf1).
  destruct (set_status_each fault in_progress (events_started d now1) (open_session d))
    as [[[]|ex] s1] eqn:Hrun1; cbn [fst snd] in *.
  - destruct (Hres1 () eq_refl) as [Hpe1 Hn1].
    destruct (set_status_each_run fault completed (events_ended (store s1) now2)
                s1 Hpe1) as (n2 & Hst2 & Hres2 & Hnf2).
    exists (take n1 (events_started d now1)), (take n2 (events_ended (store s1) now2)).
    change (store (open_session d)) with d in Hst1.
    rewrite <-Hst1. split_and!; [apply subseteq_take..| |done].
    intros Hnf. destruct (Hnf2 Hnf) as [[] Hu2].
    destruct (Hres2 () Hu2) as [_ Hn2].
    rewrite Hn1, Hn2 by done. by rewrite !firstn_all.
  - exists (take n1 (events_started d now1)), [].
    change (store (open_session d)) with d in Hst1.
    rewrite <-Hst1. split_and!; [apply subseteq_take|apply list_subseteq_nil| |done].
    intros Hnf. destruct (Hnf1 Hnf) as [u Hu]. done.
Qed.

(** X11.  Whatever commits fail, the status check leaves the participants
    and the pairs alone, and keeps every row of the events table, in its
    place, with its id and its two dates: it changes statuses only. *)
Theorem status_check_changes_statuses_only fault now1 now2 d :
  participants (check_event_status_changes fault now1 now2 d) = participants d ∧
  pairs (check_event_status_changes fault now1 now2 d) = pairs d ∧
  Forall2 same_but_status (events d)
          (events (check_event_status_changes fault now1 now2 d)).
Proof.
  destruct (check_shape fault now1 now2 d) as (l1 & l2 & _ & _ & _ & ->).
  destruct (foldl_flip_frame completed l2 (foldl (flip_status in_progress) d l1))
    as [-> ->].
  destruct (foldl_flip_frame in_progress l1 d) as [-> ->].
  split_and!; [done..|].
  rewrite !foldl_flip_events, <-list_fmap_compose.
  apply Forall2_fmap_r, Forall_Forall2_diag, Forall_forall. intros ev _. simpl.
  unfold same_but_status, phase_map, with_status.
  repeat case_decide; done.
Qed.

Lemma elem_events_started d now ev :
  ev ∈ events_started d now ↔
  ev ∈ events d ∧ registration_just_ended now ev ∧ ev_status ev = registration.
Proof.
  unfold events_started, get_events_with_active_registration, events_in_window,
    registration_just_ended.
  change (delta_given (Some (minutes (-10)))) with (Some (minutes (-10))).
  change (truthy (Some registration)) with true. cbv iota.
  rewrite !list_elem_of_filter. unfold minutes, days.
  split.
  - intros (Hst & Hmin & Hwin & Hin). split_and!; [done|lia|lia|congruence].
  - intros (Hin & Hwin & Hst). split_and!; [congruence|lia|lia|lia|done].
Qed.

Lemma elem_events_ended d now ev :
  ev ∈ events_ended d now ↔
  ev ∈ events d ∧ shipping_just_ended now ev ∧ ev_status ev = in_progress.
Proof.
  unfold events_ended, get_events_with_upcoming_deadline, events_in_window,
    shipping_just_ended.
  change (delta_given (Some (minutes (-10)))) with (Some (minutes (-10))).
  change (truthy (Some in_progress)) with true. cbv iota.
  rewrite !list_elem_of_filter. unfold minutes, days.
  split.
  - intros (Hst & Hmin & Hwin & Hin). split_and!; [done|lia|lia|congruence].
  - intros (Hin & Hwin & Hst). split_and!; [congruence|lia|lia|lia|done].
Qed.

Lemma ev_id_phase_map status l ev : ev_id (phase_map status l ev) = ev_id ev.
Proof. unfold phase_map. by case_decide. Qed.

(** With unique ids, a loop changes the rows it selected and no other. *)
Lemma phase_map_selected status l evs ev :
  NoDup (ev_id <$> evs) → l ⊆ evs → ev ∈ evs →
  phase_map status l ev = ev ∨ (ev ∈ l ∧ phase_map status l ev = with_status status ev).
Proof.
  intros Hnd Hsub Hev. unfold phase_map.
  destruct (decide (ev_id ev ∈ ev_id <$> l)) as [Hin|]; [|by left].
  right. split; [|done].
  apply list_elem_of_fmap in Hin as (x & Hid & Hx).
  assert (ev = x) as ->; [|done].
  apply (NoDup_fmap_elem_inj ev_id evs); [done|done|by apply Hsub|done].
Qed.

(** With unique event ids, what the status check does to each row. *)
Lemma status_check_rows fault now1 now2 d :
  NoDup (ev_id <$> events d) →
  ∃ g, events (check_event_status_changes fault now1 now2 d) = g <$> events d ∧
    ∀ ev, ev ∈ events d →
      g ev = ev
      ∨ (ev_status ev = registration ∧ registration_just_ended now1 ev
         ∧ g ev = with_status in_progress ev)
      ∨ (ev_status ev = in_progress ∧ shipping_just_ended now2 ev
         ∧ g ev = with_status completed ev)
      ∨ (ev_status ev = registration ∧ registration_just_ended now1 ev
         ∧ shipping_just_ended now2 ev ∧ g ev = with_status completed ev).
Proof.
  intros Hnd.
  destruct (check_shape fault now1 now2 d) as (l1 & l2 & Hl1 & Hl2 & _ & ->).
  exists (phase_map completed l2 ∘ phase_map in_progress l1).
  rewrite !foldl_flip_events, <-list_fmap_compose. split; [done|].
  intros ev Hev. simpl.
  set (evs1 := phase_map in_progress l1 <$> events d).
  assert (events (foldl (flip_status in_progress) d l1) = evs1) as Hevs1
    by apply foldl_flip_events.
  assert (NoDup (ev_id <$> evs1)) as Hnd1.
  { unfold evs1. rewrite <-list_fmap_compose.
    erewrite list_fmap_ext; [exact Hnd|]. intros i x _. apply ev_id_phase_map. }
  assert (l1 ⊆ events d) as Hsub1.
  { intros x Hx. by apply Hl1, elem_events_started in Hx as [? _]. }
  assert (l2 ⊆ evs1) as Hsub2.
  { intros x Hx. apply Hl2, elem_events_ended in Hx as [Hx _]. by rewrite <-Hevs1. }
  assert (phase_map in_progress l1 ev ∈ evs1) as Hev1
    by (by apply list_elem_of_fmap_2).
  destruct (phase_map_selected in_progress l1 (events d) ev Hnd Hsub1 Hev)
    as [H1|[Hin1 H1]];
    destruct (phase_map_selected completed l2 evs1 _ Hnd1 Hsub2 Hev1)
      as [H2|[Hin2 H2]]; rewrite H2, H1; rewrite H1 in *.
  - by left.
  - apply Hl2, elem_events_ended in Hin2 as (_ & Hw & Hs). right; right; left. done.
  - apply Hl1, elem_events_started in Hin1 as (_ & Hw & Hs). right; left. done.
  - apply Hl1, elem_events_started in Hin1 as (_ & Hw & Hs).
    apply Hl2, elem_events_ended in Hin2 as (_ & Hw2 & _).
    right; right; right. done.
Qed.

(** X12.  With unique event ids and whatever commits fail, the status
    check only moves a status forward: every row keeps its status or goes
    from [registration] to [in_progress], from [in_progress] to
    [completed], or through both steps at once. *)
Theorem status_check_only_advances fault now1 now2 d :
  NoDup (ev_id <$> events d) →
  Forall2 (λ ev ev', status_advances (ev_status ev) (ev_status ev'))
          (events d) (events (check_event_status_changes fault now1 now2 d)).
Proof.
  intros Hnd. destruct (status_check_rows fault now1 now2 d Hnd) as (g & -> & Hg).
  apply Forall2_fmap_r, Forall_Forall2_diag, Forall_forall. intros ev Hev.
  unfold compose, status_advances. cbn beta.
  destruct (Hg ev Hev) as [Hr|[(Hs & _ & Hr)|[(Hs & _ & Hr)|(Hs & _ & _ & Hr)]]];
    rewrite Hr; simpl; auto.
Qed.

Lemma status_check_only_advances_witness :
  Forall2 (λ ev ev', status_advances (ev_status ev) (ev_status ev'))
          (events sample_db)
          (events (check_event_status_changes no_fault (minutes 7) (minutes 7) sample_db)).
Proof.
  apply status_check_only_advances.
  apply (bool_decide_unpack _). vm_compute. exact I.
Defined.

(** X13.  With unique event ids and whatever commits fail, the status
    check leaves a row exactly as it is unless the event is in
    [registration] and its registration ended between ten and five
    minutes before the first clock reading, or it is in [in_progress] and
    its shipping deadline passed between ten and five minutes before the
    second: events outside these five-minute windows are never moved. *)
Theorem status_check_only_in_window fault now1 now2 d :
  NoDup (ev_id <$> events d) →
  Forall2 (λ ev ev',
             ev' = ev
             ∨ (ev_status ev = registration ∧ registration_just_ended now1 ev)
             ∨ (ev_status ev = in_progress ∧ shipping_just_ended now2 ev))
          (events d) (events (check_event_status_changes fault now1 now2 d)).
Proof.
  intros Hnd. destruct (status_check_rows fault now1 now2 d Hnd) as (g & -> & Hg).
  apply Forall2_fmap_r, Forall_Forall2_diag, Forall_forall. intros ev Hev.
  unfold compose. cbn beta.
  destruct (Hg ev Hev) as [Hr|[(Hs & Hw & _)|[(Hs & Hw & _)|(Hs & Hw & _)]]]; auto.
Qed.

Lemma status_check_only_in_window_witness :
  Forall2 (λ ev ev',
             ev' = ev
             ∨ (ev_status ev = registration ∧ registration_just_ended (minutes 30) ev)
             ∨ (ev_status ev = in_progress ∧ shipping_just_ended (minutes 30) ev))
          (events sample_db)
          (events (check_event_status_changes no_fault (minutes 30) (minutes 30) sample_db)).
Proof.
  apply status_check_only_in_window.
  apply (bool_decide_unpack _). vm_compute. exact I.
Defined.

(** X14.  When no commit fails, an event in [registration] whose
    registration ended between ten and five minutes before the first
    clock reading is moved on: afterwards every row with its id is
    [in_progress] or [completed]. *)
Theorem status_check_starts_event now1 now2 d ev :
  ev ∈ events d →
  ev_status ev = registration →
  registration_just_ended now1 ev →
  Forall (λ ev', ev_id ev' = ev_id ev →
                 ev_status ev' = in_progress ∨ ev_status ev' = completed)
         (events (check_event_status_changes no_fault now1 now2 d)).
Proof.
  intros Hev Hs Hw.
  destruct (check_shape no_fault now1 now2 d) as (l1 & l2 & _ & _ & Hnf & ->).
  destruct (Hnf eq_refl) as [Hl1 _].
  rewrite !foldl_flip_events, <-list_fmap_compose.
  apply Forall_fmap, Forall_forall. intros ev0 Hev0 Hid. simpl in *.
  rewrite ev_id_phase_map, ev_id_phase_map in Hid.
  assert (ev_id ev0 ∈ ev_id <$> l1) as Hin.
  { rewrite Hid, Hl1. apply list_elem_of_fmap_2. by apply elem_events_started. }
  assert (phase_map in_progress l1 ev0 = with_status in_progress ev0) as ->.
  { unfold phase_map. by rewrite decide_True. }
  unfold phase_map. case_decide; simpl; auto.
Qed.

Lemma status_check_starts_event_witness :
  Forall (λ ev', ev_id ev' = 1%Z →
                 ev_status ev' = in_progress ∨ ev_status ev' = completed)
         (events (check_event_status_changes no_fault (minutes 7) (minutes 7) sample_db)).
Proof.
  apply (status_check_starts_event (minutes 7) (minutes 7) sample_db
           (sample_event registration 0)).
  - apply list_elem_of_here.
  - reflexivity.
  - unfold registration_just_ended, minutes. simpl. lia.
Defined.

(** ** [get_santa_info] *)

(** X15.  [get_santa_info] never raises.  It answers [None] when no pair
    of the event has the participant as receiver, and when the santa of
    the pair is missing.  When the pair and its santa are there and read,
    it answers the santa's first name and the user name after an [@], or
    the placeholder when the user name is null or empty. *)
Theorem get_santa_info_cases read_fault pid e d :
  ∃ r, get_santa_info read_fault pid e d = Ok r ∧
    ((∀ sp, sp ∈ pairs d → ¬ (sp_event_id sp = e ∧ sp_receiver_id sp = pid)) → r = None) ∧
    (∀ sp, first_pair_of_receiver d e pid = Some sp →
           get_participant d (sp_santa_id sp) = None → r = None) ∧
    (∀ sp santa,
       first_pair_of_receiver d e pid = Some sp →
       get_participant d (sp_santa_id sp) = Some santa →
       read_fault 0 = false → read_fault 1 = false →
       ∃ info, r = Some info ∧
         santa_name info = p_first_name santa ∧
         santa_username info
         = match p_username santa with
           | Some u => if decide (u = "") then not_given else String.append "@" u
           | None => not_given
           end).
Proof.
  unfold get_santa_info, get_santa_info_try.
  assert ((∀ sp, sp ∈ pairs d → ¬ (sp_event_id sp = e ∧ sp_receiver_id sp = pid)) →
          first_pair_of_receiver d e pid = None) as Hnone.
  { intros Hno. unfold first_pair_of_receiver.
    destruct (find _ (pairs d)) as [sp|] eqn:Hfind; [|done].
    apply find_Some_elem in Hfind as [Hin Hsp].
    apply andb_true_iff in Hsp as [He%bool_decide_eq_true Hs%bool_decide_eq_true].
    by destruct (Hno sp). }
  destruct (read_fault 0).
  { exists None. split; [done|]. split_and!; try done. }
  destruct (first_pair_of_receiver d e pid) as [sp|] eqn:Hsp.
  2:{ exists None. split; [done|]. split_and!; try done. }
  destruct (read_fault 1).
  { exists None. split; [done|]. split_and!; try done. }
  destruct (get_participant d (sp_santa_id sp)) as [santa|] eqn:Hsanta.
  2:{ exists None. split; [done|]. split_and!; try done.
      intros sp' santa' [= <-] Hsanta'. by rewrite Hsanta in Hsanta'. }
  exists (Some (santa_record santa)). split; [done|]. split_and!.
  - intros H. by specialize (Hnone H).
  - intros sp' [= <-]. by rewrite Hsanta.
  - intros sp' santa' [= <-] Hsanta' _ _.
    rewrite Hsanta in Hsanta'. injection Hsanta' as <-.
    eexists; split; [done|]. simpl. by rewrite at_username_cases.
Qed.

Lemma get_santa_info_cases_witness :
  ∃ info,
    get_santa_info no_fault 1 1 (generate_pairs (λ _, 0) no_fault 1 sample_db).2
    = Ok (Some info) ∧
    santa_name info = "Anna" ∧ santa_username info = not_given.
Proof.
  destruct (get_santa_info_cases no_fault 1 1
              (generate_pairs (λ _, 0) no_fault 1 sample_db).2)
    as (r & Hr & _ & _ & Hsome).
  destruct (Hsome {| sp_id := 1; sp_event_id := 1; sp_santa_id := 2; sp_receiver_id := 1 |}
                  (sample_participant 2 1 None (Some "")))
    as (info & -> & Hname & Huser); [reflexivity..|].
  exists info. split_and!; [exact Hr|exact Hname|exact Huser].
Defined.

(** ** [_notify_participants] *)

Lemma notify_list_delivered bot owr d event l k :
  (notify_list bot owr d event l k).1
  = drop_failed bot k (notify_list no_fault owr d event l k).1.
Proof.
  revert k. induction l as [|p rest IH]; intros k; [done|]. simpl.
  destruct (owr && negb (has_recipient d event p)); [apply IH|].
  specialize (IH (S k)).
  destruct (notify_list bot owr d event rest (S k)) as [sent log].
  destruct (notify_list no_fault owr d event rest (S k)) as [sent' log'].
  simpl in *. destruct (bot k); simpl; by rewrite IH.
Qed.

Lemma notify_list_chats bot owr d event l k chat :
  chat ∈ (notify_list bot owr d event l k).1 →
  ∃ p, p ∈ l ∧ p_telegram_id p = chat ∧
       (owr = true → has_recipient d event p = true).
Proof.
  revert k. induction l as [|p rest IH]; intros k; simpl.
  { by intros ?%elem_of_nil. }
  destruct (owr && negb (has_recipient d event p)) eqn:Hskip.
  { intros (q & Hq & Hchat)%IH. exists q. split; [by apply list_elem_of_further|done]. }
  specialize (IH (S k)).
  destruct (notify_list bot owr d event rest (S k)) as [sent log]. simpl in IH.
  assert (owr = true → has_recipient d event p = true) as Hp.
  { intros ->. simpl in Hskip. by apply negb_false_iff in Hskip. }
  destruct (bot k); simpl.
  - intros (q & Hq & Hchat)%IH. exists q. split; [by apply list_elem_of_further|done].
  - intros [->|Hin]%elem_of_cons.
    + exists p. split; [apply list_elem_of_here|done].
    + destruct (IH Hin) as (q & Hq & Hchat).
      exists q. split; [by apply list_elem_of_further|done].
Qed.

Lemma notify_list_no_pairs bot d event l k :
  pairs_of d (ev_id event) = [] →
  notify_list bot true d event l k = ([], []).
Proof.
  intros Hp. revert k. induction l as [|p rest IH]; intros k; [done|]. simpl.
  unfold has_recipient at 1. rewrite Hp. simpl. apply IH.
Qed.

(** X16.  A notification round over the participants of an event: a call
    of [bot.send_message] that raises removes that one message and no
    other; every chat reached is the chat of a participant of the event,
    and, when only participants with a recipient are addressed, of one who
    is the santa of a stored pair of the event; and in that case, as long
    as the event has no pair, nobody is written to. *)
Theorem notify_participants_isolated bot owr d event k :
  (notify_participants bot owr d event k).1
  = drop_failed bot k (notify_participants no_fault owr d event k).1 ∧
  (∀ chat, chat ∈ (notify_participants bot owr d event k).1 →
     ∃ p, p ∈ participants_of d (ev_id event) ∧ p_telegram_id p = chat ∧
          (owr = true → ∃ sp, sp ∈ pairs_of d (ev_id event)
                              ∧ sp_santa_id sp = p_id p)) ∧
  (pairs_of d (ev_id event) = [] →
   notify_participants bot true d event k = ([], [])).
Proof.
  unfold notify_participants. split_and!.
  - apply notify_list_delivered.
  - intros chat (p & Hp & Hchat & Hrec)%notify_list_chats.
    exists p. split_and!; [done..|].
    intros Howr. specialize (Hrec Howr). unfold has_recipient in Hrec.
    apply existsb_exists in Hrec as (sp & Hin & Hsp%bool_decide_eq_true).
    exists sp. split; [by apply list_elem_of_In|done].
  - apply notify_list_no_pairs.
Qed.

Lemma notify_participants_isolated_witness :
  notify_participants (fault_at 0) true sample_db (sample_event registration 0) 0
  = ([], []).
Proof.
  destruct (notify_participants_isolated (fault_at 0) true sample_db
              (sample_event registration 0) 0) as (_ & _ & H).
  apply H. reflexivity.
Defined.

(** ** The wording of the shipping reminder *)

Lemma mod_shift_100 (n : Z) :
  ((n + 100) mod 10 = n mod 10 ∧ (n + 100) mod 100 = n mod 100)%Z.
Proof.
  split.
  - replace (n + 100)%Z with (n + 10 * 10)%Z by lia. apply Z_mod_plus_full.
  - replace (n + 100)%Z with (n + 1 * 100)%Z by lia. apply Z_mod_plus_full.
Qed.

Lemma mod_10_of_mod_100 (n : Z) : (n mod 10 = (n mod 100) mod 10)%Z.
Proof.
  pose proof (Z.div_mod n 100 ltac:(lia)) as H.
  rewrite H at 1.
  replace (100 * (n / 100) + n mod 100)%Z
    with (n mod 100 + (10 * (n / 100)) * 10)%Z by lia.
  apply Z_mod_plus_full.
Qed.

(** X17.  The two plural helpers depend on the last two digits only
    (they repeat with period 100, for negative numbers too), always pick
    the same one of the three forms, and pick the third form for the
    numbers ending in 11 to 14. *)
Theorem plural_forms (n : Z) :
  plural_days (n + 100) = plural_days n ∧
  plural_hours (n + 100) = plural_hours n ∧
  ((plural_days n = word_den ∧ plural_hours n = word_chas)
   ∨ (plural_days n = word_dnya ∧ plural_hours n = word_chasa)
   ∨ (plural_days n = word_dney ∧ plural_hours n = word_chasov)) ∧
  ((11 ≤ n mod 100 ≤ 14)%Z →
   plural_days n = word_dney ∧ plural_hours n = word_chasov).
Proof.
  destruct (mod_shift_100 n) as [H10 H100].
  unfold plural_days, plural_hours. rewrite H10, H100.
  split_and!; [done|done| |].
  - repeat case_decide; auto.
  - intros Hteen. pose proof (mod_10_of_mod_100 n) as Hm.
    assert (n mod 100 = 11 ∨ n mod 100 = 12 ∨ n mod 100 = 13 ∨ n mod 100 = 14)%Z
      as Hcases by lia.
    assert (¬ (n mod 10 = 1 ∧ n mod 100 ≠ 11))%Z as Hno1.
    { intros [H1 H11]. destruct Hcases as [H|[H|[H|H]]];
        [congruence|rewrite H in Hm; rewrite Hm in H1; vm_compute in H1;
                    discriminate..]. }
    assert (¬ ((2 ≤ n mod 10 ∧ n mod 10 ≤ 4)
               ∧ (n mod 100 < 10 ∨ 20 ≤ n mod 100)))%Z as Hno2 by lia.
    by rewrite !(decide_False _ _ Hno1), !(decide_False _ _ Hno2).
Qed.

Lemma plural_forms_witness :
  plural_days 112 = word_dney ∧ plural_hours 112 = word_chasov.
Proof.
  destruct (plural_forms 112) as (_ & _ & _ & H).
  apply H. vm_compute. split; discriminate.
Defined.

(** X18.  For a time left that the reminder loop does not skip, that is
    between nothing and three days: from one day on the text shows the
    whole days, 1 with the first form and 2 or 3 with the second; below
    one day it shows the whole hours, a number under 24 (taking it modulo
    24 changes nothing), with the form [_plural_hours] picks. *)
Theorem shipping_time_str_cases (time_left : Z) :
  reminder_skipped time_left = false →
  if decide (days 1 ≤ time_left)%Z
  then shipping_time_str time_left
       = ((time_left / days 1)%Z,
          if decide (time_left / days 1 = 1)%Z then word_den else word_dnya)
       ∧ (1 ≤ time_left / days 1 ≤ 3)%Z
  else shipping_time_str time_left
       = ((time_left / 3600000000)%Z, plural_hours (time_left / 3600000000))
       ∧ (0 ≤ time_left / 3600000000 < 24)%Z.
Proof.
  unfold reminder_skipped. intros Hskip.
  apply orb_false_iff in Hskip as [H3%bool_decide_eq_false H0%bool_decide_eq_false].
  unfold shipping_time_str, td_days, td_seconds, days in *.
  change (1 * 86400000000)%Z with 86400000000%Z.
  destruct (decide (86400000000 ≤ time_left)%Z) as [Hday|Hday].
  - assert (1 ≤ time_left / 86400000000 ≤ 3)%Z as Hd.
    { split.
      - apply Z.div_le_lower_bound; lia.
      - apply Z.div_le_upper_bound; lia. }
    rewrite decide_True by lia. split; [|done]. f_equal.
    unfold plural_days.
    assert (time_left / 86400000000 = 1 ∨ time_left / 86400000000 = 2
            ∨ time_left / 86400000000 = 3)%Z as [-> | [-> | ->]] by lia; done.
  - assert (time_left / 86400000000 = 0)%Z as -> by (apply Z.div_small; lia).
    rewrite decide_False by lia.
    rewrite (Z.mod_small time_left 86400000000) by lia.
    rewrite Z.div_div by lia. change (1000000 * 3600)%Z with 3600000000%Z.
    assert (0 ≤ time_left / 3600000000 < 24)%Z as Hh.
    { split.
      - apply Z.div_pos; lia.
      - apply Z.div_lt_upper_bound; lia. }
    rewrite Z.mod_small by done. done.
Qed.

Lemma shipping_time_str_cases_witness :
  shipping_time_str (days 2 + minutes 90) = (2%Z, word_dnya) ∧
  shipping_time_str (minutes 90) = (1%Z, word_chas).
Proof.
  split.
  - pose proof (shipping_time_str_cases (days 2 + minutes 90) eq_refl) as H.
    rewrite decide_True in H by (vm_compute; discriminate).
    destruct H as [H _]. rewrite H. reflexivity.
  - pose proof (shipping_time_str_cases (minutes 90) eq_refl) as H.
    rewrite decide_False in H by (vm_compute; intros Hle; by apply Hle).
    destruct H as [H _]. rewrite H. reflexivity.
Defined.

(** ** Feedback and gift confirmations *)

Lemma has_feedback_app pair_id table f :
  has_feedback pair_id (table ++ [f])
  = has_feedback pair_id table || bool_decide (fb_pair_id f = pair_id).
Proof.
  unfold has_feedback. induction table as [|g table IH]; simpl.
  { by destruct (bool_decide (fb_pair_id f = pair_id)). }
  destruct (bool_decide (fb_pair_id g = pair_id)); [done|]. apply IH.
Qed.

Lemma has_gift_confirmation_app pair_id table c :
  has_gift_confirmation pair_id (table ++ [c])
  = has_gift_confirmation pair_id table || bool_decide (gc_pair_id c = pair_id).
Proof.
  unfold has_gift_confirmation. induction table as [|g table IH]; simpl.
  { by destruct (bool_decide (gc_pair_id c = pair_id)). }
  destruct (bool_decide (gc_pair_id g = pair_id)); [done|]. apply IH.
Qed.

(** X19.  [create_feedback] refuses a rating below 1 or above 5 with
    [ValueError] and stores nothing; so a feedback table whose ratings are
    all absent or between 1 and 5 stays so, whatever is passed in and
    whether or not the commit fails. *)
Theorem create_feedback_keeps_ratings_in_range
    commit_fails pair_id message rating table :
  (∀ r, rating = Some r → (r < 1 ∨ 5 < r)%Z →
        create_feedback commit_fails pair_id message rating table
        = (inl ValueError, table)) ∧
  (Forall rating_in_range table →
   Forall rating_in_range
          (create_feedback commit_fails pair_id message rating table).2).
Proof.
  unfold create_feedback. split.
  - intros r -> Hr. by rewrite bool_decide_true.
  - intros Hall. destruct rating as [r|].
    + destruct (decide (r < 1 ∨ 5 < r)%Z) as [Hr|Hr].
      * by rewrite bool_decide_true.
      * rewrite bool_decide_false by done. destruct commit_fails; [done|]. simpl.
        apply Forall_app. split; [done|]. apply Forall_singleton.
        unfold rating_in_range. simpl. lia.
    + destruct commit_fails; [done|]. simpl.
      apply Forall_app. split; [done|]. by apply Forall_singleton.
Qed.

Lemma create_feedback_keeps_ratings_in_range_witness :
  create_feedback false 4 "thanks" (Some 6%Z) [] = (inl ValueError, []) ∧
  Forall rating_in_range (create_feedback false 4 "thanks" (Some 5%Z) []).2.
Proof.
  destruct (create_feedback_keeps_ratings_in_range false 4 "thanks" (Some 6%Z) [])
    as [Hbad _].
  destruct (create_feedback_keeps_ratings_in_range false 4 "thanks" (Some 5%Z) [])
    as [_ Hkeep].
  split.
  - apply (Hbad 6%Z); [reflexivity|lia].
  - apply Hkeep. constructor.
Defined.

(** X20.  Storing and finding feedback: when [create_feedback] returns a
    row, the row carries the pair id, the message and the rating passed
    in, is the last row of the table, and [has_feedback] answers yes for
    its pair and as before for every other pair; when it raises, the
    table is as it was. *)
Theorem create_feedback_round_trip commit_fails pair_id message rating table :
  match create_feedback commit_fails pair_id message rating table with
  | (inr f, table') =>
      table' = table ++ [f] ∧
      fb_pair_id f = pair_id ∧ fb_message f = message ∧ fb_rating f = rating ∧
      has_feedback pair_id table' = true ∧
      ∀ other, other ≠ pair_id → has_feedback other table' = has_feedback other table
  | (inl _, table') => table' = table
  end.
Proof.
  unfold create_feedback.
  destruct (match rating with Some r => bool_decide (r < 1 ∨ 5 < r)%Z | None => false end);
    [done|].
  destruct commit_fails; [done|].
  split_and!; try done.
  - rewrite has_feedback_app. simpl. rewrite bool_decide_true by done.
    apply orb_true_r.
  - intros other Hne. rewrite has_feedback_app. simpl.
    rewrite bool_decide_false by done. apply orb_false_r.
Qed.

(** X21.  Storing and finding gift confirmations: when
    [create_gift_confirmation] returns a row, the row carries what was
    passed in, is the last row of the table, and [has_gift_confirmation]
    answers yes for its pair and as before for every other pair; when the
    commit fails, the table is as it was. *)
Theorem create_gift_confirmation_round_trip
    commit_fails pair_id tracking_number message table :
  match create_gift_confirmation commit_fails pair_id tracking_number message table with
  | (inr c, table') =>
      table' = table ++ [c] ∧
      gc_pair_id c = pair_id ∧ gc_tracking_number c = tracking_number ∧
      gc_message c = message ∧
      has_gift_confirmation pair_id table' = true ∧
      ∀ other, other ≠ pair_id →
               has_gift_confirmation other table' = has_gift_confirmation other table
  | (inl _, table') => table' = table
  end.
Proof.
  unfold create_gift_confirmation.
  destruct commit_fails; [done|].
  split_and!; try done.
  - rewrite has_gift_confirmation_app. simpl. rewrite bool_decide_true by done.
    apply orb_true_r.
  - intros other Hne. rewrite has_gift_confirmation_app. simpl.
    rewrite bool_decide_false by done. apply orb_false_r.
Qed.

Lemma create_feedback_round_trip_witness :
  has_feedback 4 (create_feedback false 4 "thanks" (Some 5%Z) []).2 = true ∧
  has_feedback 9 (create_feedback false 4 "thanks" (Some 5%Z) []).2 = has_feedback 9 [].
Proof.
  pose proof (create_feedback_round_trip false 4 "thanks" (Some 5%Z) []) as H.
  simpl in H. destruct H as (_ & _ & _ & _ & Hyes & Hother).
  split; [exact Hyes|]. apply Hother. lia.
Defined.

Lemma create_gift_confirmation_round_trip_witness :
  has_gift_confirmation 4 (create_gift_confirmation false 4 (Some "RR123") None []).2
  = true ∧
  has_gift_confirmation 9 (create_gift_confirmation false 4 (Some "RR123") None []).2
  = has_gift_confirmation 9 [].
Proof.
  pose proof (create_gift_confirmation_round_trip false 4 (Some "RR123") None []) as H.
  simpl in H. destruct H as (_ & _ & _ & _ & Hyes & Hother).
  split; [exact Hyes|]. apply Hother. lia.
Defined.

Lemma generate_pairs_frame_witness :
  pairs_of (generate_pairs (λ _, 0) (fault_at 2) 1 sample_db).2 2 = pairs_of sample_db 2 ∧
  status_of (generate_pairs (λ _, 0) (fault_at 2) 1 sample_db).2 2 = status_of sample_db 2.
Proof.
  destruct (generate_pairs_frame (λ _, 0) (fault_at 2) 1 sample_db) as (_ & _ & H).
  apply H. lia.
Defined.

Lemma first_fault_leaves_partial_pairs_witness :
  ∃ d', generate_pairs (λ _, 0) (fault_at 2) 1 sample_db
        = ((false, PairsNotGenerated), d') ∧
        length (pairs_of d' 1) = 2 ∧ events d' = events sample_db.
Proof.
  apply (first_fault_leaves_partial_pairs (λ _, 0) (fault_at 2) 1 sample_db 2).
  - simpl. lia.
  - reflexivity.
  - simpl. lia.
  - reflexivity.
  - intros [|[|k]] Hk; [reflexivity..|lia].
Defined.

(** ** Runs without a fault, and the fault at the last commit *)

(** X23.  When no commit fails, an event with at least three participants
    and no pair yet is paired whatever the random source: the run answers
    success, one pair per participant is stored, and the event, if its
    row exists, is [in_progress]; without that row the run succeeds all
    the same and no status is written. *)
Theorem pairing_succeeds_without_faults rng e d :
  3 ≤ length (participants_of d e) →
  pairs_of d e = [] →
  ∃ d1, generate_pairs rng no_fault e d = ((true, PairingDone), d1) ∧
        length (pairs_of d1 e) = length (participants_of d e) ∧
        status_of d1 e = match get_event d e with
                         | Some _ => Some in_progress
                         | None => None
                         end ∧
        (get_event d e = None → events d1 = events d).
Proof.
  intros Hn Hp.
  destruct (generate_pairs_succeeds rng e d Hn Hp) as (d1 & Hrun & Hlen).
  exists d1. split_and!; [done..| |].
  - apply generate_pairs_success in Hrun as (_ & _ & l & _ & _ & ->).
    destruct (get_event d e) as [ev|] eqn:Hev.
    + apply status_of_set_status. rewrite get_event_add_pairs, Hev. eauto.
    + unfold status_of. by rewrite get_event_add_pairs, Hev.
  - intros Hev. apply generate_pairs_success in Hrun as (_ & _ & l & _ & _ & ->).
    rewrite Hev. apply add_pairs_events.
Qed.

Lemma pairing_succeeds_without_faults_witness :
  ∃ d1, generate_pairs (λ _, 4) no_fault 7 orphan_db = ((true, PairingDone), d1) ∧
        length (pairs_of d1 7) = 3 ∧
        status_of d1 7 = None ∧
        (get_event orphan_db 7 = None → events d1 = events orphan_db).
Proof.
  apply (pairing_succeeds_without_faults (λ _, 4) 7 orphan_db).
  - simpl. lia.
  - reflexivity.
Defined.

(** X24.  When every pair is committed and the commit of the status
    fails, the run answers that the pairs could not be generated although
    all of them are stored, one per participant, and the events table is
    as it was: the pairs are complete and the event is not marked. *)
Theorem status_commit_fault_keeps_pairs rng fault e d :
  3 ≤ length (participants_of d e) →
  pairs_of d e = [] →
  is_Some (get_event d e) →
  (∀ k, k < length (participants_of d e) → fault k = false) →
  fault (length (participants_of d e)) = true →
  ∃ d', generate_pairs rng fault e d = ((false, PairsNotGenerated), d') ∧
        length (pairs_of d' e) = length (participants_of d e) ∧
        events d' = events d.
Proof.
  intros Hn Hp [ev Hev] Hok Hfault.
  destruct (generate_pairs_run rng fault e d Hn Hp) as (l & _ & Hlen & ->).
  destruct (create_all fault e l (open_session d)) as [[[]|ex] s] eqn:Hc.
  - rewrite Hev, Hlen, Hfault. eexists; split; [done|].
    by rewrite add_pairs_pairs_of, Hp, add_pairs_events.
  - apply create_all_Exc in Hc as (k & Hk & _ & Hfk & _); [|done].
    simpl in Hfk. rewrite Hok in Hfk by lia. done.
Qed.

Lemma status_commit_fault_keeps_pairs_witness :
  ∃ d', generate_pairs (λ _, 0) (fault_at 3) 1 sample_db
        = ((false, PairsNotGenerated), d') ∧
        length (pairs_of d' 1) = 3 ∧ events d' = events sample_db.
Proof.
  apply (status_commit_fault_keeps_pairs (λ _, 0) (fault_at 3) 1 sample_db).
  - simpl. lia.
  - reflexivity.
  - by eexists.
  - intros [|[|[|k]]] Hk; [reflexivity..|simpl in Hk; lia].
  - reflexivity.
Defined.

(** ** The shape of the assignment *)




